(** * Credit-card statement parser: validation and normalisation

    A shallow embedding of the deterministic part of [app.py]: the
    response clean-up of [GeminiParser.parse_statement] and the three
    static methods of [DataValidator] ([validate], [_clean_date],
    [_clean_amount]), together with the Python built-ins they call.

    Conventions.
    - A Python [str] is a [string] whose characters are the code points
      0..255.  On that range the Unicode classes used by [re] and by
      [str.strip] are fixed: white space is 9-13, 28-32, 133 and 160, and
      the decimal digits are 48-57.
    - A Python [float] is a binary64 value, [spec_float] with precision 53
      and maximal exponent 1024.
    - A raised exception is an explicit outcome, [Raises e]. *)

From Stdlib Require Import ZArith NArith List String Ascii Bool Lia DecimalString.
From Stdlib Require Import Floats.SpecFloat.
From Stdlib Require Import Sorting.Sorted.
From stdpp Require Import gmap.

Import ListNotations.
Local Open Scope string_scope.
Local Open Scope Z_scope.

(** ** Characters and strings *)

Module Str.

Definition code (c : ascii) : N := N_of_ascii c.

(** [Py_UNICODE_ISSPACE], used by [str.strip] and by [\s]. *)
Definition isspace (c : ascii) : bool :=
  let n := code c in
  ((9 <=? n) && (n <=? 13) || (28 <=? n) && (n <=? 32)
   || (n =? 133) || (n =? 160))%N.

(** [Py_UNICODE_ISDECIMAL], the class [\d]. *)
Definition isdigit (c : ascii) : bool :=
  let n := code c in ((48 <=? n) && (n <=? 57))%N.

Definition lower (c : ascii) : ascii :=
  let n := code c in
  if ((65 <=? n) && (n <=? 90))%N then ascii_of_N (n + 32) else c.

Fixpoint filter (p : ascii -> bool) (s : string) : string :=
  match s with
  | EmptyString => EmptyString
  | String c s' => if p c then String c (filter p s') else filter p s'
  end.

Fixpoint all (p : ascii -> bool) (s : string) : bool :=
  match s with
  | EmptyString => true
  | String c s' => p c && all p s'
  end.

Fixpoint map (f : ascii -> ascii) (s : string) : string :=
  match s with
  | EmptyString => EmptyString
  | String c s' => String (f c) (map f s')
  end.

Fixpoint lstrip_by (p : ascii -> bool) (s : string) : string :=
  match s with
  | String c s' => if p c then lstrip_by p s' else s
  | EmptyString => EmptyString
  end.

Fixpoint rstrip_by (p : ascii -> bool) (s : string) : string :=
  match s with
  | EmptyString => EmptyString
  | String c s' =>
      match rstrip_by p s' with
      | EmptyString => if p c then EmptyString else String c EmptyString
      | r => String c r
      end
  end.

(** [s.strip()] *)
Definition strip (s : string) : string :=
  rstrip_by isspace (lstrip_by isspace s).

(** [sub in s] *)
Fixpoint contains (sub s : string) : bool :=
  String.prefix sub s ||
  match s with
  | EmptyString => false
  | String _ s' => contains sub s'
  end.

Definition has_char (c : ascii) (s : string) : bool :=
  negb (all (fun x => negb (Ascii.eqb x c)) s).

Fixpoint drop (n : nat) (s : string) : string :=
  match n, s with
  | O, _ => s
  | S n', String _ s' => drop n' s'
  | S _, EmptyString => EmptyString
  end.

Fixpoint take (n : nat) (s : string) : string :=
  match n, s with
  | S n', String c s' => String c (take n' s')
  | _, _ => EmptyString
  end.

End Str.

(** ** Exceptions *)

Inductive exn : Type :=
  | ValueError (msg : string)
  | OverflowError
  | TypeError (msg : string)
  | IndexError
  | KeyError (key : string)
  | AttributeError (msg : string)
  | JSONDecodeError (msg : string)
  | OtherError (msg : string)
  | Exception (msg : string).

Inductive outcome (A : Type) : Type :=
  | Returns (a : A)
  | Raises (e : exn).
Arguments Returns {A} a.
Arguments Raises {A} e.

Definition bind {A B} (m : outcome A) (k : A -> outcome B) : outcome B :=
  match m with
  | Returns a => k a
  | Raises e => Raises e
  end.

(** [try: body except: handler], the bare handler that catches everything. *)
Definition try_except {A} (body : outcome A) (handler : exn -> outcome A)
  : outcome A :=
  match body with
  | Returns a => Returns a
  | Raises e => handler e
  end.

Notation "'do' x <- m ; k" := (bind m (fun x => k))
  (at level 10, x name, m at level 100, k at level 200,
   format "'[v' 'do'  x  <-  m ; '/' k ']'").

(** ** Floats: the built-in [float] *)

Module Float.

Definition float := spec_float.

Definition prec : Z := 53.
Definition emax : Z := 1024.

(** The binary64 value nearest to [m * 10 ^ e10] (ties to even), with the
    sign [sign]; a magnitude beyond the range becomes an infinity. *)
Definition of_decimal (sign : bool) (m : Z) (e10 : Z) : float :=
  match m with
  | Zpos p =>
      SFdiv prec emax
        (S754_finite sign (p * Z.to_pos (10 ^ Z.max e10 0)) 0)
        (S754_finite false (Z.to_pos (10 ^ Z.max (- e10) 0)) 0)
  | _ => S754_zero sign
  end.

(** [float(n)] for an [int]: correctly rounded, [OverflowError] when the
    rounded value is out of range. *)
Definition of_int (n : Z) : outcome float :=
  match binary_normalize prec emax n 0 false with
  | S754_infinity _ => Raises OverflowError
  | f => Returns f
  end.

Definition digit_val (c : ascii) : Z := Z.of_N (Str.code c) - 48.

(** A run of ASCII digits: the value accumulated on [acc], how many digits
    were read, and what follows. *)
Fixpoint read_digits (s : string) (acc : Z) (n : nat) : Z * nat * string :=
  match s with
  | String c s' =>
      if Str.isdigit c then read_digits s' (10 * acc + digit_val c) (S n)
      else (acc, n, s)
  | EmptyString => (acc, n, s)
  end.

Definition read_sign (s : string) : bool * string :=
  match s with
  | String "-" s' => (true, s')
  | String "+" s' => (false, s')
  | _ => (false, s)
  end.

(** The optional exponent part: its value and what follows.  An [e] that
    is not followed by digits is not part of the number. *)
Definition read_exponent (s : string) : Z * string :=
  match s with
  | String c s' =>
      if Ascii.eqb (Str.lower c) "e" then
        let '(neg, s'') := read_sign s' in
        let '(v, n, rest) := read_digits s'' 0 0 in
        match n with
        | O => (0, s)
        | _ => (if neg then - v else v, rest)
        end
      else (0, s)
  | EmptyString => (0, s)
  end.

(** The decimal part of [_Py_dg_strtod]: [None] when no conversion could be
    made, otherwise the value and the unread rest. *)
Definition strtod (s : string) : option (float * string) :=
  let '(neg, s1) := read_sign s in
  let '(ip, ni, s2) := read_digits s1 0 0 in
  let '(m, nf, s3) :=
    match s2 with
    | String "." s' => read_digits s' ip 0
    | _ => (ip, O, s2)
    end in
  match (ni + nf)%nat with
  | O => None
  | _ =>
      let '(e, s4) := read_exponent s3 in
      Some (of_decimal neg m (e - Z.of_nat nf), s4)
  end.

(** Case-insensitive match of a lower-case pattern at the head of [s]. *)
Fixpoint match_nocase (pat s : string) : option string :=
  match pat, s with
  | EmptyString, _ => Some s
  | String p pat', String c s' =>
      if Ascii.eqb (Str.lower c) p then match_nocase pat' s' else None
  | String _ _, EmptyString => None
  end.

(** [_Py_parse_inf_or_nan] *)
Definition parse_inf_or_nan (s : string) : option (float * string) :=
  let '(neg, s1) := read_sign s in
  match match_nocase "inf" s1 with
  | Some s2 =>
      match match_nocase "inity" s2 with
      | Some s3 => Some (S754_infinity neg, s3)
      | None => Some (S754_infinity neg, s2)
      end
  | None =>
      match match_nocase "nan" s1 with
      | Some s2 => Some (S754_nan, s2)
      | None => None
      end
  end.

(** Underscores are allowed only between two digits; they are removed
    before the number is read.  [prev] is the previous character. *)
Fixpoint strip_underscores (prev : ascii) (s : string) : option string :=
  match s with
  | EmptyString => if Ascii.eqb prev "_" then None else Some EmptyString
  | String c s' =>
      if Ascii.eqb c "_" then
        if Str.isdigit prev then strip_underscores c s' else None
      else if Ascii.eqb prev "_" && negb (Str.isdigit c) then None
      else option_map (String c) (strip_underscores c s')
  end.

(** [Py_ISSPACE], the white space of the C locale. *)
Definition c_isspace (c : ascii) : bool :=
  let n := Str.code c in ((9 <=? n) && (n <=? 13) || (n =? 32))%N.

(** What [float] sees of a character that is not ASCII: white space as a
    blank, anything else as a question mark. *)
Definition to_ascii (c : ascii) : ascii :=
  if (Str.code c <? 128)%N then c
  else if Str.isspace c then " "%char else "?"%char.

(** [float(s)] for a [str]. *)
Definition of_str (s : string) : outcome float :=
  let bad := Raises (ValueError "could not convert string to float") in
  match strip_underscores "000" (Str.map to_ascii s) with
  | None => bad
  | Some t =>
      let t := Str.rstrip_by c_isspace (Str.lstrip_by c_isspace t) in
      let r := match strtod t with
               | Some r => Some r
               | None => parse_inf_or_nan t
               end in
      match r with
      | Some (f, EmptyString) => Returns f
      | _ => bad
      end
  end.

End Float.

(** ** Python values

    The objects [json.loads] builds: [None], [bool], [int], [float],
    [str], [list] and [dict] with [str] keys.  A [dict] keeps its entries
    in insertion order, as Python does. *)

#[warnings="-register-all"]
Inductive value : Type :=
  | VNone
  | VBool (b : bool)
  | VInt (n : Z)
  | VFloat (f : Float.float)
  | VStr (s : string)
  | VList (xs : list value)
  | VDict (kvs : list (string * value)).

Definition dict := list (string * value).

Module Dict.

(** [d.get(k)], whose default is [None]. *)
Fixpoint get (d : dict) (k : string) : value :=
  match d with
  | [] => VNone
  | (k', v) :: d' => if String.eqb k' k then v else get d' k
  end.

(** [k in d] *)
Fixpoint contains (d : dict) (k : string) : bool :=
  match d with
  | [] => false
  | (k', _) :: d' => String.eqb k' k || contains d' k
  end.

(** [d[k]] *)
Fixpoint getitem (d : dict) (k : string) : outcome value :=
  match d with
  | [] => Raises (KeyError k)
  | (k', v) :: d' => if String.eqb k' k then Returns v else getitem d' k
  end.

(** [d[k] = v]: an existing key keeps its place, a new one goes last. *)
Fixpoint setitem (d : dict) (k : string) (v : value) : dict :=
  match d with
  | [] => [(k, v)]
  | (k', v') :: d' =>
      if String.eqb k' k then (k', v) :: d' else (k', v') :: setitem d' k v
  end.

Definition keys (d : dict) : list string := List.map fst d.

End Dict.

(** Truth value of an object, as [if x:] and [not x] take it. *)
Definition truthy (v : value) : bool :=
  match v with
  | VNone => false
  | VBool b => b
  | VInt n => negb (n =? 0)
  | VFloat (S754_zero _) => false
  | VFloat _ => true
  | VStr EmptyString => false
  | VStr _ => true
  | VList [] => false
  | VList _ => true
  | VDict [] => false
  | VDict _ => true
  end.

(** [x is not None] *)
Definition is_not_none (v : value) : bool :=
  match v with
  | VNone => false
  | _ => true
  end.

(** ** The built-ins [str] and [repr] *)

Module Repr.

(** [str(n)] for an [int]. *)
Definition of_int (n : Z) : string :=
  DecimalString.NilZero.string_of_int (Z.to_int n).

Definition hex_digit (n : N) : ascii :=
  if (n <? 10)%N then ascii_of_N (48 + n) else ascii_of_N (87 + n).

(** A character that [repr] writes as it is: the printable ASCII
    characters and, above them, 161-255 except the soft hyphen 173. *)
Definition isprintable (c : ascii) : bool :=
  let n := Str.code c in
  ((32 <=? n) && (n <? 127) || (161 <=? n) && negb (n =? 173))%N.

Definition escape_char (quote c : ascii) : string :=
  if Ascii.eqb c quote || Ascii.eqb c "\" then String "\" (String c "")
  else if Ascii.eqb c "009" then "\t"
  else if Ascii.eqb c "010" then "\n"
  else if Ascii.eqb c "013" then "\r"
  else if isprintable c then String c ""
  else
    let n := Str.code c in
    String "\" (String "x" (String (hex_digit (n / 16))
                             (String (hex_digit (n mod 16)) ""))).

Fixpoint escape (quote : ascii) (s : string) : string :=
  match s with
  | EmptyString => EmptyString
  | String c s' => (escape_char quote c ++ escape quote s')%string
  end.

(** [repr(s)] for a [str]: single quotes, unless the text has a single
    quote and no double quote. *)
Definition of_str (s : string) : string :=
  let quote :=
    if Str.has_char "039" s && negb (Str.has_char "034" s)
    then "034"%char else "039"%char in
  String quote (escape quote s ++ String quote "")%string.

(** Number of decimal digits of a positive integer. *)
Fixpoint ndigits (fuel : nat) (n : Z) : Z :=
  match fuel with
  | O => 0
  | S fuel' => if n <? 10 then 1 else 1 + ndigits fuel' (n / 10)
  end.

(** For a positive fraction [num / den] below one: the number of zeros
    that follow the decimal point. *)
Fixpoint leading_zeros (fuel : nat) (num den : Z) : Z :=
  match fuel with
  | O => 0
  | S fuel' =>
      if den <=? 10 * num then 0
      else 1 + leading_zeros fuel' (10 * num) den
  end.

(** The decimal exponent [k] of a positive [num / den]:
    [10 ^ (k - 1) <= num / den < 10 ^ k]. *)
Definition decimal_exponent (num den : Z) : Z :=
  if den <=? num then ndigits 400 (num / den)
  else - leading_zeros 400 num den.

Fixpoint strip_zeros (fuel : nat) (c k : Z) : Z * Z :=
  match fuel with
  | O => (c, k)
  | S fuel' =>
      if (c mod 10 =? 0) && negb (c =? 0) then strip_zeros fuel' (c / 10) (k + 1)
      else (c, k)
  end.

(** The shortest decimal [c * 10 ^ k] that [float] reads back as the
    positive value [m * 2 ^ e]; among several of that length, the
    nearest.  [n] is the number of digits tried, from 1 to 17. *)
Fixpoint shortest (fuel : nat) (n : Z) (m : positive) (e : Z) (num den dexp : Z)
  : Z * Z :=
  let k := dexp - n in
  let snum := num * 10 ^ Z.max (- k) 0 in
  let sden := den * 10 ^ Z.max k 0 in
  let lo := snum / sden in
  let hi := lo + 1 in
  let back c := SFeqb (Float.of_decimal false c k) (S754_finite false m e) in
  let lo_nearer :=
    match 2 * snum ?= (2 * lo + 1) * sden with
    | Lt => true
    | Eq => Z.even lo
    | Gt => false
    end in
  match fuel with
  | O => (lo, k)
  | S fuel' =>
      match back lo, back hi with
      | true, true => if lo_nearer then (lo, k) else (hi, k)
      | true, false => (lo, k)
      | false, true => (hi, k)
      | false, false => shortest fuel' (n + 1) m e num den dexp
      end
  end.

Fixpoint zeros (n : nat) : string :=
  match n with
  | O => EmptyString
  | S n' => String "0" (zeros n')
  end.

(** Lay out the digits [ds] of a value [0.ds * 10 ^ decpt] the way
    [repr] does: fixed notation while [-4 < decpt <= 16], otherwise
    with an exponent of at least two digits. *)
Definition layout (ds : string) (decpt : Z) : string :=
  let len := Z.of_nat (String.length ds) in
  if (-4 <? decpt) && (decpt <=? 16) then
    if decpt <=? 0 then ("0." ++ zeros (Z.to_nat (- decpt)) ++ ds)%string
    else if len <=? decpt then (ds ++ zeros (Z.to_nat (decpt - len)) ++ ".0")%string
    else (Str.take (Z.to_nat decpt) ds ++ "." ++ Str.drop (Z.to_nat decpt) ds)%string
  else
    let x := decpt - 1 in
    let xs := of_int (Z.abs x) in
    let xs := if Z.abs x <? 10 then String "0" xs else xs in
    let mant :=
      match ds with
      | String c EmptyString => ds
      | String c rest => String c (String "." rest)
      | EmptyString => ds
      end in
    (mant ++ "e" ++ (if (x <? 0)%Z then "-" else "+") ++ xs)%string.

(** [repr(f)] for a [float]. *)
Definition of_float (f : Float.float) : string :=
  match f with
  | S754_nan => "nan"
  | S754_infinity s => if s then "-inf" else "inf"
  | S754_zero s => if s then "-0.0" else "0.0"
  | S754_finite s m e =>
      let num := Zpos m * 2 ^ Z.max e 0 in
      let den := 2 ^ Z.max (- e) 0 in
      let dexp := decimal_exponent num den in
      let '(c, k) := shortest 17 1 m e num den dexp in
      let '(c, k) := strip_zeros 20 c k in
      let ds := of_int c in
      let body := layout ds (k + Z.of_nat (String.length ds)) in
      if s then String "-" body else body
  end.

Definition join (sep : string) (parts : list string) : string :=
  match parts with
  | [] => EmptyString
  | p :: ps => fold_left (fun acc q => (acc ++ sep ++ q)%string) ps p
  end.

(** [repr(v)] *)
Fixpoint repr (v : value) : string :=
  match v with
  | VNone => "None"
  | VBool b => if b then "True" else "False"
  | VInt n => of_int n
  | VFloat f => of_float f
  | VStr s => of_str s
  | VList xs => ("[" ++ join ", " (List.map repr xs) ++ "]")%string
  | VDict kvs =>
      ("{" ++ join ", " (List.map (fun kv => (of_str (fst kv) ++ ": " ++ repr (snd kv))%string) kvs)
           ++ "}")%string
  end.

(** [str(v)] *)
Definition str (v : value) : string :=
  match v with
  | VStr s => s
  | _ => repr v
  end.

End Repr.

(** ** Dates: [datetime.strptime] and [strftime] *)

Module Datetime.

Record date : Type := mkdate { year : Z; month : Z; day : Z }.

(** The pieces of a format: a directive, a run of white space (matched
    by one or more white-space characters), or a literal character. *)
Inductive tok : Type :=
  | TYear                      (* %Y *)
  | TMonth                     (* %m *)
  | TDay                       (* %d *)
  | TMonthName (full : bool)   (* %B and %b *)
  | TSpace
  | TLit (c : ascii).

Fixpoint parse_format (fmt : string) : option (list tok) :=
  match fmt with
  | EmptyString => Some []
  | String "%" (String d rest) =>
      let t :=
        if Ascii.eqb d "Y" then Some TYear
        else if Ascii.eqb d "m" then Some TMonth
        else if Ascii.eqb d "d" then Some TDay
        else if Ascii.eqb d "B" then Some (TMonthName true)
        else if Ascii.eqb d "b" then Some (TMonthName false)
        else if Ascii.eqb d "%" then Some (TLit "%")
        else None in
      match t, parse_format rest with
      | Some t, Some ts => Some (t :: ts)
      | _, _ => None
      end
  | String "%" EmptyString => None
  | String c rest =>
      match parse_format rest with
      | Some ts =>
          if Str.isspace c then
            match ts with
            | TSpace :: _ => Some ts
            | _ => Some (TSpace :: ts)
            end
          else Some (TLit c :: ts)
      | None => None
      end
  end.

(** What the groups of the pattern have captured so far. *)
Record fields : Type := mkfields { fY : Z; fm : Z; fd : Z }.

Definition no_fields : fields := {| fY := 1900; fm := 1; fd := 1 |}.

Definition in_range (lo hi : ascii) (c : ascii) : bool :=
  ((Str.code lo <=? Str.code c) && (Str.code c <=? Str.code hi))%N.

Definition dv (c : ascii) : Z := Float.digit_val c.

(** The month names of the C locale, lower-cased, in the order the
    pattern lists them (longest first). *)
Definition full_names : list (string * Z) :=
  [("september", 9); ("february", 2); ("november", 11); ("december", 12);
   ("january", 1); ("october", 10); ("august", 8); ("march", 3);
   ("april", 4); ("june", 6); ("july", 7); ("may", 5)].

Definition abbr_names : list (string * Z) :=
  [("jan", 1); ("feb", 2); ("mar", 3); ("apr", 4); ("may", 5); ("jun", 6);
   ("jul", 7); ("aug", 8); ("sep", 9); ("oct", 10); ("nov", 11); ("dec", 12)].

(** A run of white space at the head of [s], greedy: the longest match
    first, then each shorter one down to a single character. *)
Fixpoint spaces (s : string) : list string :=
  match s with
  | String c s' => if Str.isspace c then (spaces s' ++ [s'])%list else []
  | EmptyString => []
  end.

(** The matches of one piece at the head of [s], in the order in which a
    backtracking matcher tries them. *)
Definition match_tok (t : tok) (fs : fields) (s : string)
  : list (fields * string) :=
  match t with
  | TYear =>                                   (* \d\d\d\d *)
      match s with
      | String a (String b (String c (String d rest))) =>
          if Str.isdigit a && Str.isdigit b && Str.isdigit c && Str.isdigit d
          then [({| fY := 1000 * dv a + 100 * dv b + 10 * dv c + dv d;
                    fm := fm fs; fd := fd fs |}, rest)]
          else []
      | _ => []
      end
  | TMonth =>                                  (* 1[0-2]|0[1-9]|[1-9] *)
      let set v := {| fY := fY fs; fm := v; fd := fd fs |} in
      match s with
      | String a rest =>
          match rest with
          | String b rest' =>
              (if Ascii.eqb a "1" && in_range "0" "2" b
               then [(set (10 + dv b), rest')] else [])
              ++ (if Ascii.eqb a "0" && in_range "1" "9" b
                  then [(set (dv b), rest')] else [])
          | EmptyString => []
          end
          ++ (if in_range "1" "9" a then [(set (dv a), rest)] else [])
      | EmptyString => []
      end
  | TDay =>                       (* 3[0-1]|[1-2]\d|0[1-9]|[1-9]| [1-9] *)
      let set v := {| fY := fY fs; fm := fm fs; fd := v |} in
      match s with
      | String a rest =>
          match rest with
          | String b rest' =>
              (if Ascii.eqb a "3" && in_range "0" "1" b
               then [(set (30 + dv b), rest')] else [])
              ++ (if in_range "1" "2" a && Str.isdigit b
                  then [(set (10 * dv a + dv b), rest')] else [])
              ++ (if Ascii.eqb a "0" && in_range "1" "9" b
                  then [(set (dv b), rest')] else [])
          | EmptyString => []
          end
          ++ (if in_range "1" "9" a then [(set (dv a), rest)] else [])
          ++ match rest with
             | String b rest' =>
                 if Ascii.eqb a " " && in_range "1" "9" b
                 then [(set (dv b), rest')] else []
             | EmptyString => []
             end
      | EmptyString => []
      end
  | TMonthName full =>
      flat_map
        (fun nm =>
           match Float.match_nocase (fst nm) s with
           | Some rest => [({| fY := fY fs; fm := snd nm; fd := fd fs |}, rest)]
           | None => []
           end)
        (if full then full_names else abbr_names)
  | TSpace => List.map (fun rest => (fs, rest)) (spaces s)
  | TLit c =>
      match s with
      | String a rest =>
          if Ascii.eqb (Str.lower a) (Str.lower c) then [(fs, rest)] else []
      | EmptyString => []
      end
  end.

Fixpoint match_toks (ts : list tok) (fs : fields) (s : string)
  : list (fields * string) :=
  match ts with
  | [] => [(fs, s)]
  | t :: ts' =>
      flat_map (fun r => match_toks ts' (fst r) (snd r)) (match_tok t fs s)
  end.

Definition is_leap (y : Z) : bool :=
  (y mod 4 =? 0) && (negb (y mod 100 =? 0) || (y mod 400 =? 0)).

Definition days_in_month (y m : Z) : Z :=
  if m =? 2 then (if is_leap y then 29 else 28)
  else if (m =? 4) || (m =? 6) || (m =? 9) || (m =? 11) then 30
  else 31.

Definition valid_date (d : date) : bool :=
  (1 <=? year d) && (year d <=? 9999)
  && (1 <=? month d) && (month d <=? 12)
  && (1 <=? day d) && (day d <=? days_in_month (year d) (month d)).

(** [datetime.strptime(s, fmt)], for the directives above.  The first
    match of the pattern is taken; it must reach the end of [s], and the
    fields must form a date of the calendar. *)
Definition strptime (s fmt : string) : outcome date :=
  match parse_format fmt with
  | None => Raises (ValueError "bad directive in format")
  | Some ts =>
      match match_toks ts no_fields s with
      | [] => Raises (ValueError "time data does not match format")
      | (fs, rest) :: _ =>
          match rest with
          | EmptyString =>
              let d := {| year := fY fs; month := fm fs; day := fd fs |} in
              if valid_date d then Returns d
              else Raises (ValueError "date value out of range")
          | _ => Raises (ValueError "unconverted data remains")
          end
      end
  end.

(** [n] written on at least [w] digits, zero filled. *)
Definition pad (w : nat) (n : Z) : string :=
  let s := Repr.of_int n in
  (Repr.zeros (w - String.length s) ++ s)%string.

(** [dt.strftime("%Y-%m-%d")].  The C library writes [%Y] as the decimal
    numeral of the year and does not fill it to four digits (glibc): the
    year 999 is written [999].  [%m] and [%d] are written on two digits. *)
Definition strftime_ymd (d : date) : string :=
  (Repr.of_int (year d) ++ "-" ++ pad 2 (month d) ++ "-" ++ pad 2 (day d))%string.

End Datetime.

(** ** [class DataValidator] *)

(** The dictionary [validate] returns. *)
Record ValidationResult : Type := mkresult {
  is_valid : bool;
  errors : list string;
  warnings : list string;
  data : dict
}.

Definition set_data (r : ValidationResult) (k : string) (v : value) : ValidationResult :=
  {| is_valid := is_valid r; errors := errors r; warnings := warnings r;
     data := Dict.setitem (data r) k v |}.

Definition add_warning (r : ValidationResult) (w : string) : ValidationResult :=
  {| is_valid := is_valid r; errors := errors r;
     warnings := (warnings r ++ [w])%list; data := data r |}.

(** A [for] loop whose body may raise. *)
Fixpoint for_each {A S} (xs : list A) (body : S -> A -> outcome S) (s : S)
  : outcome S :=
  match xs with
  | [] => Returns s
  | x :: xs' => do s' <- body s x; for_each xs' body s'
  end.

(** [iter(v)]: the items a [for] loop over [v] visits. *)
Definition iterate (v : value) : outcome (list value) :=
  match v with
  | VList xs => Returns xs
  | VStr s => Returns (List.map (fun c => VStr (String c "")) (list_ascii_of_string s))
  | VDict kvs => Returns (List.map (fun kv => VStr (fst kv)) kvs)
  | _ => Raises (TypeError "object is not iterable")
  end.

Module DataValidator.

Definition remove_char (c : ascii) (s : string) : string :=
  Str.filter (fun x => negb (Ascii.eqb x c)) s.

(** [re.sub(r'[$,\s]', '', s)] *)
Definition sub_symbols (s : string) : string :=
  Str.filter
    (fun c => negb (Ascii.eqb c "$" || Ascii.eqb c "," || Str.isspace c)) s.

(** [_clean_amount(amount)] *)
Definition _clean_amount (amount : value) : outcome (option Float.float) :=
  match amount with
  | VNone => Returns None
  | _ =>
      try_except
        match amount with
        | VBool b => do f <- Float.of_int (Z.b2z b); Returns (Some f)
        | VInt n => do f <- Float.of_int n; Returns (Some f)
        | VFloat f => Returns (Some f)
        | VStr s =>
            let cleaned := sub_symbols (Str.strip s) in
            let cleaned :=
              if Str.has_char "(" cleaned && Str.has_char ")" cleaned
              then String "-" (remove_char ")" (remove_char "(" cleaned))
              else cleaned in
            do f <- Float.of_str cleaned; Returns (Some f)
        | _ => Returns None
        end
        (fun _ => Returns None)
  end.

Definition formats : list string :=
  ["%Y-%m-%d"; "%m/%d/%Y"; "%d/%m/%Y"; "%m-%d-%Y";
   "%B %d, %Y"; "%b %d, %Y"; "%Y/%m/%d"].

(** The loop of [_clean_date]: the first format that parses [s] gives the
    result; [None] when the loop runs to its end. *)
Fixpoint try_formats (s : string) (fmts : list string) : option string :=
  match fmts with
  | [] => None
  | fmt :: fmts' =>
      match Datetime.strptime s fmt with
      | Returns dt => Some (Datetime.strftime_ymd dt)
      | Raises _ => try_formats s fmts'
      end
  end.

(** [_clean_date(date_str)] *)
Definition _clean_date (date_str : value) : outcome (option string) :=
  if negb (truthy date_str) then Returns None
  else
    match try_formats (Str.strip (Repr.str date_str)) formats with
    | Some iso => Returns (Some iso)
    | None => Returns (Some (Repr.str date_str))
    end.

Definition date_fields : list string :=
  ["payment_due_date"; "billing_cycle_start"; "billing_cycle_end"].

Definition amount_fields : list string :=
  ["total_balance"; "minimum_payment"; "previous_balance";
   "new_charges"; "credit_limit"; "available_credit"].

(** The body of the loop over the transactions. *)
Definition clean_txn (cleaned_txns : list value) (txn : value)
  : outcome (list value) :=
  match txn with
  | VDict t =>
      if truthy (Dict.get t "description") then
        let cleaned_txn := t in
        do cleaned_txn <-
          (if Dict.contains t "amount" then
             do a <- Dict.getitem t "amount";
             do amount <- _clean_amount a;
             match amount with
             | Some f => Returns (Dict.setitem cleaned_txn "amount" (VFloat f))
             | None => Returns cleaned_txn
             end
           else Returns cleaned_txn);
        Returns (cleaned_txns ++ [VDict cleaned_txn])%list
      else Returns cleaned_txns
  | _ => Returns cleaned_txns
  end.

(** The block [# Validate card_last_4]. *)
Definition validate_card (data : dict) (result : ValidationResult) : outcome ValidationResult :=
  if truthy (Dict.get data "card_last_4") then
    do v <- Dict.getitem data "card_last_4";
    let digits := Str.filter Str.isdigit (Repr.str v) in
    if (String.length digits =? 4)%nat
    then Returns (set_data result "card_last_4" (VStr digits))
    else Returns (add_warning result "Card last 4 digits format issue")
  else Returns result.

(** The body of the loop [# Validate dates]. *)
Definition validate_date (data : dict) (result : ValidationResult) (date_field : string)
  : outcome ValidationResult :=
  if truthy (Dict.get data date_field) then
    do v <- Dict.getitem data date_field;
    do cleaned_date <- _clean_date v;
    match cleaned_date with
    | Some (String _ _ as c) => Returns (set_data result date_field (VStr c))
    | _ => Returns result
    end
  else Returns result.

(** The body of the loop [# Validate amounts]. *)
Definition validate_amount (data : dict) (result : ValidationResult) (field : string)
  : outcome ValidationResult :=
  if is_not_none (Dict.get data field) then
    do v <- Dict.getitem data field;
    do cleaned <- _clean_amount v;
    match cleaned with
    | Some f => Returns (set_data result field (VFloat f))
    | None => Returns result
    end
  else Returns result.

(** The block [# Validate transactions]. *)
Definition validate_transactions (data : dict) (result : ValidationResult)
  : outcome ValidationResult :=
  if truthy (Dict.get data "transactions") then
    do txns <- Dict.getitem data "transactions";
    do items <- iterate txns;
    do cleaned_txns <- for_each items clean_txn [];
    Returns (set_data result "transactions" (VList cleaned_txns))
  else Returns result.

(** The block [# Check critical fields]. *)
Definition check_critical (data : dict) (result : ValidationResult) : ValidationResult :=
  let result :=
    if negb (truthy (Dict.get data "card_issuer"))
    then add_warning result "Could not identify card issuer" else result in
  if negb (truthy (Dict.get data "total_balance"))
  then add_warning result "Could not find total balance" else result.

(** [validate(data)].  Values are immutable here, so [data.copy()] is
    [data] itself; the store model below keeps the two objects apart. *)
Definition validate (data : dict) : outcome ValidationResult :=
  let result :=
    {| is_valid := true; errors := []; warnings := []; data := data |} in
  do result <- validate_card data result;
  do result <- for_each date_fields (validate_date data) result;
  do result <- for_each amount_fields (validate_amount data) result;
  do result <- validate_transactions data result;
  Returns (check_critical data result).

(** *** The rules in the words of the specification *)

(** The monetary rule: the float when the value converts, otherwise the
    value as it came. *)
Definition normalize_amount (v : value) : value :=
  match _clean_amount v with
  | Returns (Some f) => VFloat f
  | _ => v
  end.

(** The text handed to [float]: dollar signs, commas and white space
    taken out; when both parentheses occur, they are taken out too and a
    minus sign is put in front. *)
Definition amount_text (s : string) : string :=
  let t := sub_symbols s in
  if Str.has_char "(" t && Str.has_char ")" t
  then String "-" (remove_char ")" (remove_char "(" t))
  else t.


(** An entry that has a non-empty description. *)
Definition has_description (txn : value) : bool :=
  match txn with
  | VDict t => truthy (Dict.get t "description")
  | _ => false
  end.

(** A kept entry, its amount normalised when it has one. *)
Definition normalize_txn (txn : value) : value :=
  match txn with
  | VDict t =>
      if Dict.contains t "amount"
      then VDict (Dict.setitem t "amount" (normalize_amount (Dict.get t "amount")))
      else VDict t
  | _ => txn
  end.

(** The transactions field can be walked by a [for] loop, or is skipped:
    it is absent, falsy, or a list, a string or a dict. *)
Definition transactions_iterable (data : dict) : bool :=
  match Dict.get data "transactions" with
  | VList _ | VStr _ | VDict _ => true
  | v => negb (truthy v)
  end.

(** [YYYY-MM-DD]: four digits, two digits and two digits, with dashes. *)
Definition iso_shape (s : string) : bool :=
  match s with
  | String y1 (String y2 (String y3 (String y4 (String "-"
      (String m1 (String m2 (String "-" (String d1 (String d2 ""))))))))) =>
      Str.isdigit y1 && Str.isdigit y2 && Str.isdigit y3 && Str.isdigit y4
      && Str.isdigit m1 && Str.isdigit m2 && Str.isdigit d1 && Str.isdigit d2
  | _ => false
  end.

(** The value each block assigns, if it assigns one, read off the input
    alone. *)
Definition card_digits (data : dict) : string :=
  Str.filter Str.isdigit (Repr.str (Dict.get data "card_last_4")).

Definition card_update (data : dict) : option value :=
  if truthy (Dict.get data "card_last_4")
     && (String.length (card_digits data) =? 4)%nat
  then Some (VStr (card_digits data)) else None.

Definition card_warning (data : dict) : list string :=
  if truthy (Dict.get data "card_last_4")
     && negb (String.length (card_digits data) =? 4)%nat
  then ["Card last 4 digits format issue"] else [].

Definition date_update (data : dict) (date_field : string) : option value :=
  if truthy (Dict.get data date_field) then
    match _clean_date (Dict.get data date_field) with
    | Returns (Some (String _ _ as c)) => Some (VStr c)
    | _ => None
    end
  else None.

Definition amount_update (data : dict) (field : string) : option value :=
  match _clean_amount (Dict.get data field) with
  | Returns (Some f) => Some (VFloat f)
  | _ => None
  end.

Definition transactions_update (data : dict) : option value :=
  if truthy (Dict.get data "transactions") then
    match iterate (Dict.get data "transactions") with
    | Returns items =>
        Some (VList (List.map normalize_txn (List.filter has_description items)))
    | Raises _ => None
    end
  else None.

Definition updates (data : dict) : list (string * option value) :=
  (("card_last_4", card_update data)
   :: List.map (fun f => (f, date_update data f)) date_fields
   ++ List.map (fun f => (f, amount_update data f)) amount_fields
   ++ [("transactions", transactions_update data)])%list.

Definition apply_update (d : dict) (u : string * option value) : dict :=
  match snd u with
  | Some v => Dict.setitem d (fst u) v
  | None => d
  end.

Definition maybe_set (r : ValidationResult) (k : string) (o : option value)
  : ValidationResult :=
  {| is_valid := is_valid r; errors := errors r; warnings := warnings r;
     data := apply_update (data r) (k, o) |}.

Definition critical_warnings (data : dict) : list string :=
  ((if truthy (Dict.get data "card_issuer") then []
    else ["Could not identify card issuer"])
   ++ (if truthy (Dict.get data "total_balance") then []
       else ["Could not find total balance"]))%list.

(** What [validate] returns when it returns. *)
Definition validated (data : dict) : ValidationResult :=
  {| is_valid := true;
     errors := [];
     warnings := (card_warning data ++ critical_warnings data)%list;
     data := fold_left apply_update (updates data) data |}.

(** The value of the field [k] after the updates [us]. *)
Fixpoint updated (us : list (string * option value)) (k : string) : option value :=
  match us with
  | [] => None
  | (k', o) :: us' =>
      match updated us' k with
      | Some v => Some v
      | None => if String.eqb k' k then o else None
      end
  end.

End DataValidator.

(** ** [class GeminiParser]: cleaning and parsing the model's response *)

(** [s.split(sep)] for a separator that is not empty.  [skip] counts the
    characters of a separator just found that are still to be passed. *)
Fixpoint split_go (sep s : string) (skip : nat) : list string :=
  match s with
  | EmptyString => [EmptyString]
  | String c s' =>
      match skip with
      | S n => split_go sep s' n
      | O =>
          if String.prefix sep s
          then EmptyString :: split_go sep s' (String.length sep - 1)
          else
            match split_go sep s' 0 with
            | p :: ps => String c p :: ps
            | [] => [String c EmptyString]
            end
      end
  end.

Definition str_split (sep s : string) : list string := split_go sep s 0.

(** [parts[i]] *)
Definition index {A} (parts : list A) (i : nat) : outcome A :=
  match nth_error parts i with
  | Some p => Returns p
  | None => Raises IndexError
  end.

(** [str(e)] for an exception. *)
Definition exn_str (e : exn) : string :=
  match e with
  | ValueError m | TypeError m | JSONDecodeError m | OtherError m
  | Exception m | AttributeError m => m
  | KeyError k => Repr.of_str k
  | OverflowError => "int too large to convert to float"
  | IndexError => "list index out of range"
  end.

Module GeminiParser.

Definition json_fence : string := "```json".
Definition fence : string := "```".

(** The statements under the comment [# Clean response]. *)
Definition clean_response (response_text : string) : outcome string :=
  if Str.contains json_fence response_text then
    do part <- index (str_split json_fence response_text) 1;
    do body <- index (str_split fence part) 0;
    Returns (Str.strip body)
  else if Str.contains fence response_text then
    do part <- index (str_split fence response_text) 1;
    do body <- index (str_split fence part) 0;
    Returns (Str.strip body)
  else Returns response_text.

Section Parse.

(** [json.loads], which is a library function, and the outcome of the
    call to the model: the text of its response, or what the call or the
    access to the text raised. *)
Variable json_loads : string -> outcome value.

(** The [try] block of [parse_statement] and its two handlers. *)
Definition parse_statement (response : outcome string) : outcome value :=
  match
    (do text <- response;
     let response_text := Str.strip text in
     do response_text <- clean_response response_text;
     json_loads response_text)
  with
  | Returns parsed_data => Returns parsed_data
  | Raises (JSONDecodeError m) =>
      Raises (Exception ("Could not parse AI response: " ++ m))
  | Raises e => Raises (Exception ("AI parsing error: " ++ exn_str e))
  end.

(** Steps 2 and 3 of [process_statement]: parse, then validate.  Only a
    [dict] has both [copy] and [get]. *)
Definition process_statement (response : outcome string) : outcome ValidationResult :=
  do parsed_data <- parse_statement response;
  match parsed_data with
  | VDict d => DataValidator.validate d
  | _ => Raises (AttributeError "object has no attribute 'get'")
  end.

End Parse.

(** The specification's reading of the clean-up, by positions: [find] is the
    index of the first occurrence. *)
Fixpoint find (sub s : string) : option nat :=
  if String.prefix sub s then Some O
  else
    match s with
    | EmptyString => None
    | String _ s' => option_map S (find sub s')
    end.

(** The text after the first [opening] up to the next [closing], or up
    to the end when there is none. *)
Definition block (opening closing text : string) : option string :=
  match find opening text with
  | None => None
  | Some n =>
      let after := Str.drop (n + String.length opening) text in
      match find closing after with
      | Some m => Some (Str.take m after)
      | None => Some after
      end
  end.

(** A second label begins inside the fence that closes the block labelled
    json, one or two characters after the start of that fence: the fence
    is the head of a run of four or five backticks, and the label follows
    the run. *)
Definition label_in_closing_fence (text : string) : bool :=
  match find json_fence text with
  | None => false
  | Some n =>
      let after := Str.drop (n + String.length json_fence) text in
      match find fence after, find json_fence after with
      | Some m, Some j => (j =? m + 1)%nat || (j =? m + 2)%nat
      | _, _ => false
      end
  end.

Definition unwrap_spec (text : string) : string :=
  match block json_fence fence text with
  | Some body => Str.strip body
  | None =>
      match block fence fence text with
      | Some body => Str.strip body
      | None => text
      end
  end.

End GeminiParser.

(** ** The same [validate] over a store of objects

    [validate] receives a reference to a [dict] and works with [copy],
    item assignment and [append].  Here lists and dicts live in a store,
    a value may be a reference into it, and every statement that creates
    or changes an object acts on the store. *)

Module Store.

Definition loc := nat.

Inductive hval : Type :=
  | HNone
  | HBool (b : bool)
  | HInt (n : Z)
  | HFloat (f : Float.float)
  | HStr (s : string)
  | HRef (l : loc).

Inductive obj : Type :=
  | ODict (kvs : list (string * hval))
  | OList (xs : list hval).

(** What an expression that only reads sees of a value: the objects
    behind the references, down to depth [fuel]. *)
Fixpoint reify (fuel : nat) (h : gmap loc obj) (v : hval) : value :=
  match v with
  | HNone => VNone
  | HBool b => VBool b
  | HInt n => VInt n
  | HFloat f => VFloat f
  | HStr s => VStr s
  | HRef l =>
      match fuel with
      | O => VNone
      | S fuel' =>
          match h !! l with
          | Some (ODict kvs) =>
              VDict (List.map (fun kv => (fst kv, reify fuel' h (snd kv))) kvs)
          | Some (OList xs) => VList (List.map (reify fuel' h) xs)
          | None => VNone
          end
      end
  end.

(** A computation on the store that may raise; what was written before
    the exception stays written. *)
Definition M (A : Type) : Type := gmap loc obj -> outcome A * gmap loc obj.

Definition ret {A} (a : A) : M A := fun h => (Returns a, h).

Definition raise {A} (e : exn) : M A := fun h => (Raises e, h).

Definition mbind {A B} (m : M A) (k : A -> M B) : M B :=
  fun h =>
    match m h with
    | (Returns a, h') => k a h'
    | (Raises e, h') => (Raises e, h')
    end.

Notation "'exec' x <- m ; k" := (mbind m (fun x => k))
  (at level 10, x name, m at level 100, k at level 200,
   format "'[v' 'exec'  x  <-  m ; '/' k ']'").

Definition lift {A} (o : outcome A) : M A := fun h => (o, h).

(** A new object, at an address the store does not use yet. *)
Definition alloc (o : obj) : M loc :=
  fun h => let l := fresh (dom h) in (Returns l, <[l := o]> h).

Definition write (l : loc) (o : obj) : M unit :=
  fun h => (Returns tt, <[l := o]> h).

Definition view (v : hval) : M value :=
  fun h => (Returns (reify (S (size h)) h v), h).

(** The entries of the dict at [l]; other objects have no [get], no
    [copy] and no item assignment by key. *)
Definition entries (l : loc) : M (list (string * hval)) :=
  fun h =>
    match h !! l with
    | Some (ODict kvs) => (Returns kvs, h)
    | _ => (Raises (AttributeError "object is not a dict"), h)
    end.

Fixpoint lookup_entry (kvs : list (string * hval)) (k : string) : option hval :=
  match kvs with
  | [] => None
  | (k', v) :: kvs' => if String.eqb k' k then Some v else lookup_entry kvs' k
  end.

Fixpoint set_entry (kvs : list (string * hval)) (k : string) (v : hval)
  : list (string * hval) :=
  match kvs with
  | [] => [(k, v)]
  | (k', v') :: kvs' =>
      if String.eqb k' k then (k', v) :: kvs' else (k', v') :: set_entry kvs' k v
  end.

(** [d.get(k)] *)
Definition get (d : loc) (k : string) : M hval :=
  exec kvs <- entries d;
  ret (match lookup_entry kvs k with Some v => v | None => HNone end).

(** [d[k]] *)
Definition getitem (d : loc) (k : string) : M hval :=
  exec kvs <- entries d;
  match lookup_entry kvs k with
  | Some v => ret v
  | None => raise (KeyError k)
  end.

(** [k in d] *)
Definition contains (d : loc) (k : string) : M bool :=
  exec kvs <- entries d;
  ret (match lookup_entry kvs k with Some _ => true | None => false end).

(** [d[k] = v] *)
Definition setitem (d : loc) (k : string) (v : hval) : M unit :=
  exec kvs <- entries d;
  write d (ODict (set_entry kvs k v)).

(** [d.copy()]: a new dict with the same entries; the values are shared. *)
Definition copy (d : loc) : M loc :=
  exec kvs <- entries d;
  alloc (ODict kvs).

(** [xs.append(v)] *)
Definition append (xs : loc) (v : hval) : M unit :=
  fun h =>
    match h !! xs with
    | Some (OList items) => (Returns tt, <[xs := OList (items ++ [v])%list]> h)
    | _ => (Raises (AttributeError "object is not a list"), h)
    end.

(** [iter(v)] *)
Definition iterate (v : hval) : M (list hval) :=
  match v with
  | HStr s => ret (List.map (fun c => HStr (String c "")) (list_ascii_of_string s))
  | HRef l =>
      fun h =>
        match h !! l with
        | Some (OList xs) => (Returns xs, h)
        | Some (ODict kvs) => (Returns (List.map (fun kv => HStr (fst kv)) kvs), h)
        | None => (Raises (OtherError "dangling reference"), h)
        end
  | _ => raise (TypeError "object is not iterable")
  end.

(** [isinstance(v, dict)]: the address of the dict, if [v] is one. *)
Definition as_dict (v : hval) : M (option loc) :=
  match v with
  | HRef l =>
      fun h =>
        match h !! l with
        | Some (ODict _) => (Returns (Some l), h)
        | _ => (Returns None, h)
        end
  | _ => ret None
  end.

Fixpoint for_each {A S} (xs : list A) (body : S -> A -> M S) (s : S) : M S :=
  match xs with
  | [] => ret s
  | x :: xs' => exec s' <- body s x; for_each xs' body s'
  end.

(** The result: its [data] is the address of the normalised dict. *)
Record ValidationResult : Type := mkresult {
  is_valid : bool;
  errors : list string;
  warnings : list string;
  data : loc
}.

Definition add_warning (r : ValidationResult) (w : string) : ValidationResult :=
  {| is_valid := is_valid r; errors := errors r;
     warnings := (warnings r ++ [w])%list; data := data r |}.

(** [x] seen as a truth value. *)
Definition test (v : hval) : M bool :=
  exec t <- view v; ret (truthy t).

(** The body of the loop over the transactions. *)
Definition clean_txn (cleaned_txns : loc) (_ : unit) (txn : hval) : M unit :=
  exec d <- as_dict txn;
  match d with
  | Some t =>
      exec desc <- get t "description";
      exec keep <- test desc;
      if keep then
        exec cleaned_txn <- copy t;
        exec has_amount <- contains t "amount";
        exec _ <-
          (if has_amount then
             exec a <- getitem t "amount";
             exec av <- view a;
             exec amount <- lift (DataValidator._clean_amount av);
             match amount with
             | Some f => setitem cleaned_txn "amount" (HFloat f)
             | None => ret tt
             end
           else ret tt);
        append cleaned_txns (HRef cleaned_txn)
      else ret tt
  | None => ret tt
  end.

(** [validate(data)] *)
Definition validate (data : loc) : M ValidationResult :=
  exec copied <- copy data;
  let result :=
    {| is_valid := true; errors := []; warnings := []; data := copied |} in
  (* Validate card_last_4 *)
  exec card <- get data "card_last_4";
  exec has_card <- test card;
  exec result <-
    (if has_card then
       exec v <- getitem data "card_last_4";
       exec t <- view v;
       let digits := Str.filter Str.isdigit (Repr.str t) in
       if (String.length digits =? 4)%nat
       then exec _ <- setitem (Store.data result) "card_last_4" (HStr digits);
            ret result
       else ret (add_warning result "Card last 4 digits format issue")
     else ret result);
  (* Validate dates *)
  exec result <-
    for_each DataValidator.date_fields
      (fun result date_field =>
         exec v <- get data date_field;
         exec present <- test v;
         if present then
           exec v <- getitem data date_field;
           exec t <- view v;
           exec cleaned_date <- lift (DataValidator._clean_date t);
           match cleaned_date with
           | Some (String _ _ as c) =>
               exec _ <- setitem (Store.data result) date_field (HStr c);
               ret result
           | _ => ret result
           end
         else ret result)
      result;
  (* Validate amounts *)
  exec result <-
    for_each DataValidator.amount_fields
      (fun result field =>
         exec v <- get data field;
         exec t <- view v;
         if is_not_none t then
           exec v <- getitem data field;
           exec t <- view v;
           exec cleaned <- lift (DataValidator._clean_amount t);
           match cleaned with
           | Some f =>
               exec _ <- setitem (Store.data result) field (HFloat f);
               ret result
           | None => ret result
           end
         else ret result)
      result;
  (* Validate transactions *)
  exec txns <- get data "transactions";
  exec has_txns <- test txns;
  exec _ <-
    (if has_txns then
       exec cleaned_txns <- alloc (OList []);
       exec txns <- getitem data "transactions";
       exec items <- iterate txns;
       exec _ <- for_each items (clean_txn cleaned_txns) tt;
       setitem (Store.data result) "transactions" (HRef cleaned_txns)
     else ret tt);
  (* Check critical fields *)
  exec issuer <- get data "card_issuer";
  exec has_issuer <- test issuer;
  let result :=
    if negb has_issuer
    then add_warning result "Could not identify card issuer" else result in
  exec balance <- get data "total_balance";
  exec has_balance <- test balance;
  let result :=
    if negb has_balance
    then add_warning result "Could not find total balance" else result in
  ret result.

End Store.

(** ** [class PDFExtractor]

    What [pdfplumber] gives is taken as it comes: opening the file gives
    the pages or raises, and each page gives its text ([None] or a
    string) and its tables, or raises. *)

Module PDFExtractor.

(** A table: rows of cells, an empty cell being [None]. *)
Definition table := list (list (option string)).

Record page : Type := mkpage {
  extract_text : outcome (option string);
  extract_tables : outcome (list table)
}.

(** An entry of [extracted_data["tables"]]. *)
Record table_entry : Type := mkentry {
  entry_page : nat;
  entry_data : table
}.

(** The dictionary [extracted_data]. *)
Record extracted : Type := mkextracted {
  text : string;
  tables : list table_entry;
  page_count : nat
}.

(** The header and the text of a page, as one piece of [all_text]. *)
Definition page_piece (page_num : nat) (page_text : string) : string :=
  ("--- Page " ++ Repr.of_int (Z.of_nat page_num) ++ " ---
" ++ page_text)%string.

(** The body of the loop over the pages: [all_text] and the tables
    collected so far, then with the page [page_num]. *)
Definition add_page (acc : list string * list table_entry)
    (page_num : nat) (p : page) : outcome (list string * list table_entry) :=
  do page_text <- extract_text p;
  let all_text :=
    match page_text with
    | Some (String _ _ as t) => (fst acc ++ [page_piece page_num t])%list
    | _ => fst acc
    end in
  do tbls <- extract_tables p;
  Returns (all_text,
           (snd acc ++ List.map (fun t => mkentry page_num t) tbls)%list).

(** [for page_num, page in enumerate(pages, start)] *)
Fixpoint pages_loop (pages : list page) (page_num : nat)
    (acc : list string * list table_entry)
  : outcome (list string * list table_entry) :=
  match pages with
  | [] => Returns acc
  | p :: pages' =>
      do acc' <- add_page acc page_num p;
      pages_loop pages' (S page_num) acc'
  end.

(** [extract_from_pdf(pdf_file)]; [pdf] is what opening the file gave. *)
Definition extract_from_pdf (pdf : outcome (list page)) : outcome extracted :=
  match
    (do pages <- pdf;
     do acc <- pages_loop pages 1 ([], []);
     Returns {| text := Repr.join "

" (fst acc);
                tables := snd acc;
                page_count := List.length pages |})
  with
  | Returns extracted_data => Returns extracted_data
  | Raises e => Raises (Exception ("Error reading PDF: " ++ exn_str e))
  end.

(** A page from which both calls return. *)
Definition readable (p : page) : Prop :=
  (exists t, extract_text p = Returns t)
  /\ (exists ts, extract_tables p = Returns ts).

(** A page with some text. *)
Definition has_text (p : page) : Prop :=
  exists c t, extract_text p = Returns (Some (String c t)).

End PDFExtractor.

(** ** [GeminiParser._build_prompt] and the whole run *)

Module Prompt.

Definition dq : string := String "034" "".

(** A line ["name": "description"] of the example object. *)
Definition field (indent name description : string) : string :=
  (indent ++ dq ++ name ++ dq ++ ": " ++ dq ++ description ++ dq)%string.

(** The text of the template before the statement. *)
Definition head : string :=
  ("
Analyze this credit card statement and extract key information.

Return ONLY a valid JSON object with these fields (use null if not found):

{
" ++ field "  " "card_issuer" "Bank/issuer name (Chase, Amex, Citi, etc.)" ++ ",
" ++ field "  " "card_variant" "Card type (Platinum, Gold, Rewards, etc.)" ++ ",
" ++ field "  " "card_last_4" "Last 4 digits" ++ ",
" ++ field "  " "billing_cycle_start" "Start date" ++ ",
" ++ field "  " "billing_cycle_end" "End date" ++ ",
" ++ field "  " "payment_due_date" "Due date in YYYY-MM-DD" ++ ",
" ++ field "  " "total_balance" "Total amount due (number only)" ++ ",
" ++ field "  " "minimum_payment" "Minimum payment (number only)" ++ ",
" ++ field "  " "previous_balance" "Previous balance (number only)" ++ ",
" ++ field "  " "new_charges" "New charges amount (number only)" ++ ",
" ++ field "  " "credit_limit" "Credit limit (number only)" ++ ",
" ++ field "  " "available_credit" "Available credit (number only)" ++ ",
  " ++ dq ++ "transactions" ++ dq ++ ": [
    {
" ++ field "      " "date" "MM/DD/YYYY" ++ ",
" ++ field "      " "description" "Transaction description" ++ ",
" ++ field "      " "amount" "Amount (number, negative for credits)" ++ "
    }
  ]
}

Instructions:
- Extract ALL transactions you can find
- Convert amounts to numbers (remove $ and commas)
- Use null for missing data
- Return ONLY valid JSON

STATEMENT TEXT:
")%string.

(** The number of characters of the statement that are sent. *)
Definition limit : nat := Z.to_nat 20000.

(** [_build_prompt(text)] *)
Definition _build_prompt (text : string) : string :=
  (head ++ Str.take limit text ++ "
")%string.

End Prompt.

Module Pipeline.

(** What [getattr] says when a value of [json.loads] is used as the
    [dict] that [validate] expects: a list has [copy] but no [get], the
    other values have no [copy]. *)
Definition no_attribute (v : value) : string :=
  match v with
  | VNone => "'NoneType' object has no attribute 'copy'"
  | VBool _ => "'bool' object has no attribute 'copy'"
  | VInt _ => "'int' object has no attribute 'copy'"
  | VFloat _ => "'float' object has no attribute 'copy'"
  | VStr _ => "'str' object has no attribute 'copy'"
  | VList _ => "'list' object has no attribute 'get'"
  | VDict _ => ""
  end.

(** A model object: [generate_content(prompt).text], the text of the
    response or the exception of the call. *)
Definition model : Type := string -> outcome string.

Section Run.

(** [genai.configure(api_key=api_key)], [genai.GenerativeModel(name)] and
    [json.loads]. *)
Variable configure : outcome unit.
Variable GenerativeModel : string -> outcome model.
Variable json_loads : string -> outcome value.

(** [GeminiParser.__init__(api_key)], giving [self.model]. *)
Definition init : outcome model :=
  do _ <- configure;
  try_except (GenerativeModel "gemini-2.5-flash")
             (fun _ => GenerativeModel "gemini-1.5-flash").

(** [GeminiParser.parse_statement(extracted_data)] *)
Definition parse_statement (self_model : model)
    (extracted_data : PDFExtractor.extracted) : outcome value :=
  let prompt := Prompt._build_prompt (PDFExtractor.text extracted_data) in
  GeminiParser.parse_statement json_loads (self_model prompt).

(** The [try] block of [process_statement] up to the validated result,
    without the progress display: what it raises is what the [except]
    clause reports. *)
Definition process_statement (pdf : outcome (list PDFExtractor.page))
  : outcome ValidationResult :=
  do extracted_data <- PDFExtractor.extract_from_pdf pdf;
  do self_model <- init;
  do parsed_data <- parse_statement self_model extracted_data;
  match parsed_data with
  | VDict d => DataValidator.validate d
  | v => Raises (AttributeError (no_attribute v))
  end.

End Run.

End Pipeline.

(** The fields [validate] knows. *)
Definition known_fields : list string :=
  ("card_last_4" :: DataValidator.date_fields
   ++ DataValidator.amount_fields ++ ["transactions"])%list.

(** The three warnings, in the order in which they can be recorded. *)
Definition all_warnings : list string :=
  ["Card last 4 digits format issue"; "Could not identify card issuer";
   "Could not find total balance"].

(** One of the characters [re.sub(r'[$,\s]', '', s)] removes. *)
Definition is_symbol (c : ascii) : bool :=
  Ascii.eqb c "$" || Ascii.eqb c "," || Str.isspace c.

(** The pages numbered from [page_num] on, as [enumerate] numbers them. *)
Fixpoint numbered (pages : list PDFExtractor.page) (page_num : nat)
  : list (nat * PDFExtractor.page) :=
  match pages with
  | [] => []
  | p :: pages' => (page_num, p) :: numbered pages' (S page_num)
  end.

(** The tables of a numbered page, each with the number of the page. *)
Definition entries_of (np : nat * PDFExtractor.page)
  : list PDFExtractor.table_entry :=
  match PDFExtractor.extract_tables (snd np) with
  | Returns ts => List.map (fun t => PDFExtractor.mkentry (fst np) t) ts
  | Raises _ => []
  end.

(** The piece of [all_text] a numbered page gives, if it has text. *)
Definition pieces_of (np : nat * PDFExtractor.page) : list string :=
  match PDFExtractor.extract_text (snd np) with
  | Returns (Some (String c t)) => [PDFExtractor.page_piece (fst np) (String c t)]
  | _ => []
  end.

(** A page that gives the text [t] and the tables [ts]. *)
Definition page_with (t : option string) (ts : list PDFExtractor.table)
  : PDFExtractor.page :=
  {| PDFExtractor.extract_text := Returns t;
     PDFExtractor.extract_tables := Returns ts |}.

(** The two digits of a month or of a day and the number they write. *)
Definition two_digit_value (s : string) (n : Z) : bool :=
  match s with
  | String a (String b EmptyString) =>
      Str.isdigit a && Str.isdigit b
      && (10 * Float.digit_val a + Float.digit_val b =? n)
  | _ => false
  end.

(** The four digits of a year and the number they write. *)
Definition four_digit_value (s : string) (n : Z) : bool :=
  match s with
  | String a (String b (String c (String e EmptyString))) =>
      Str.isdigit a && Str.isdigit b && Str.isdigit c && Str.isdigit e
      && (1000 * Float.digit_val a + 100 * Float.digit_val b
          + 10 * Float.digit_val c + Float.digit_val e =? n)
  | _ => false
  end.

(** ** Sample inputs *)

Import DataValidator.

Definition sample_statement : dict :=
  [("card_issuer", VStr "Chase"); ("card_last_4", VStr "4532");
   ("total_balance", VStr "$1,204.33"); ("payment_due_date", VStr "03/15/2024");
   ("transactions",
    VList [VDict [("date", VStr "03/01/2024"); ("description", VStr "Coffee");
                  ("amount", VStr "$4.50")];
           VDict [("date", VStr "03/02/2024"); ("amount", VInt 12)];
           VDict [("description", VStr "Refund"); ("amount", VStr "(200.00)")]])].

Definition statement_with_long_suffix : dict :=
  [("card_issuer", VStr "Chase"); ("card_last_4", VStr "xxxx-4532-1");
   ("total_balance", VInt 100)].

Definition statement_with_empty_suffix : dict :=
  [("card_issuer", VStr "Chase"); ("card_last_4", VStr "");
   ("total_balance", VInt 100)].


Definition statement_with_short_year : dict :=
  [("card_issuer", VStr "Chase"); ("payment_due_date", VStr "0999-01-01");
   ("total_balance", VInt 100)].

Definition sample_response : string :=
  "```json
{}
```".

(** A stand-in for [json.loads] on the samples: it knows the empty object. *)
Definition sample_json_loads (s : string) : outcome value :=
  if String.eqb s "{}" then Returns (VDict [])
  else Raises (JSONDecodeError "Expecting value").

Definition sample_store : gmap Store.loc Store.obj :=
  list_to_map
    [(0%nat, Store.ODict
               [("card_issuer", Store.HStr "Chase");
                ("card_last_4", Store.HStr "4532");
                ("total_balance", Store.HStr "$1,204.33");
                ("payment_due_date", Store.HStr "03/15/2024");
                ("transactions", Store.HRef 1%nat)]);
     (1%nat, Store.OList [Store.HRef 2%nat; Store.HRef 3%nat; Store.HRef 4%nat]);
     (2%nat, Store.ODict
               [("date", Store.HStr "03/01/2024");
                ("description", Store.HStr "Coffee");
                ("amount", Store.HStr "$4.50")]);
     (3%nat, Store.ODict
               [("date", Store.HStr "03/02/2024"); ("amount", Store.HInt 12)]);
     (4%nat, Store.ODict
               [("description", Store.HStr "Refund");
                ("amount", Store.HStr "(200.00)")])].

(** The shapes of a year of four digits and of a month or day of two. *)
Definition four_digits (s : string) : bool :=
  match s with
  | String a (String b (String c (String e EmptyString))) =>
      Str.isdigit a && Str.isdigit b && Str.isdigit c && Str.isdigit e
  | _ => false
  end.

Definition two_digits (s : string) : bool :=
  match s with
  | String a (String b EmptyString) => Str.isdigit a && Str.isdigit b
  | _ => false
  end.

(** Started in a store that extends [h0], the computation ends in a store
    that extends [h0], and what it returns satisfies [Q]. *)
Definition post {A} (h0 : gmap Store.loc Store.obj) (m : Store.M A)
    (Q : A -> Prop) : Prop :=
  forall h, subseteq h0 h ->
    subseteq h0 (snd (m h)) /\ forall a, fst (m h) = Returns a -> Q a.

(** A computation that only reads. *)
Definition reads {A} (m : Store.M A) : Prop := forall h, snd (m h) = h.

(** * Properties *)

(** ** Dictionaries *)

Lemma get_setitem (d : dict) (k k' : string) (v : value) :
  Dict.get (Dict.setitem d k v) k' = if String.eqb k k' then v else Dict.get d k'.
Proof.
  induction d as [| [k0 v0] d IH]; simpl.
  - reflexivity.
  - destruct (String.eqb k0 k) eqn:E0; simpl.
    + apply String.eqb_eq in E0. subst k0.
      destruct (String.eqb k k'); reflexivity.
    + destruct (String.eqb k0 k') eqn:E1.
      * apply String.eqb_eq in E1. subst k0.
        rewrite String.eqb_sym, E0. reflexivity.
      * apply IH.
Qed.

Lemma keys_setitem (d : dict) (k : string) (v : value) :
  Dict.contains d k = true -> Dict.keys (Dict.setitem d k v) = Dict.keys d.
Proof.
  unfold Dict.keys.
  induction d as [| [k0 v0] d IH]; simpl; [discriminate |].
  destruct (String.eqb k0 k); simpl; intros H; [reflexivity |].
  f_equal. apply IH, H.
Qed.

Lemma contains_keys (d : dict) (k : string) :
  Dict.contains d k = true <-> In k (Dict.keys d).
Proof.
  unfold Dict.keys.
  induction d as [| [k0 v0] d IH]; simpl.
  - split; [discriminate | tauto].
  - rewrite orb_true_iff, String.eqb_eq, IH. tauto.
Qed.

Lemma get_contains (d : dict) (k : string) :
  Dict.get d k <> VNone -> Dict.contains d k = true.
Proof.
  induction d as [| [k0 v0] d IH]; simpl; [congruence |].
  destruct (String.eqb k0 k); simpl; auto.
Qed.

Lemma getitem_contains (d : dict) (k : string) :
  Dict.contains d k = true -> Dict.getitem d k = Returns (Dict.get d k).
Proof.
  induction d as [| [k0 v0] d IH]; simpl; [discriminate |].
  destruct (String.eqb k0 k); simpl; auto.
Qed.

Lemma truthy_not_none (v : value) : truthy v = true -> v <> VNone.
Proof. destruct v; simpl; congruence. Qed.

Lemma is_not_none_spec (v : value) : is_not_none v = true -> v <> VNone.
Proof. destruct v; simpl; congruence. Qed.

Lemma getitem_truthy (d : dict) (k : string) :
  truthy (Dict.get d k) = true -> Dict.getitem d k = Returns (Dict.get d k).
Proof. intros H. apply getitem_contains, get_contains, truthy_not_none, H. Qed.

Lemma getitem_not_none (d : dict) (k : string) :
  is_not_none (Dict.get d k) = true -> Dict.getitem d k = Returns (Dict.get d k).
Proof. intros H. apply getitem_contains, get_contains, is_not_none_spec, H. Qed.

(** ** [_clean_amount] and [_clean_date] always return *)

Lemma clean_amount_returns (v : value) :
  exists o, DataValidator._clean_amount v = Returns o.
Proof.
  unfold DataValidator._clean_amount.
  destruct v; simpl; try (eexists; reflexivity).
  - destruct (Float.of_int (Z.b2z b)); simpl; eexists; reflexivity.
  - destruct (Float.of_int n); simpl; eexists; reflexivity.
  - match goal with
    | |- context [Float.of_str ?s] => destruct (Float.of_str s)
    end; simpl; eexists; reflexivity.
Qed.

Lemma clean_date_returns (v : value) :
  exists o, DataValidator._clean_date v = Returns o.
Proof.
  unfold DataValidator._clean_date.
  destruct (negb (truthy v)); [eexists; reflexivity |].
  destruct (DataValidator.try_formats _ _); eexists; reflexivity.
Qed.

Lemma normalize_amount_eq (v : value) :
  DataValidator.normalize_amount v =
  match DataValidator._clean_amount v with
  | Returns (Some f) => VFloat f
  | _ => v
  end.
Proof. reflexivity. Qed.

(** ** The blocks of [validate] *)

Lemma validate_card_eq (d : dict) (r : ValidationResult) :
  validate_card d r =
  Returns {| is_valid := is_valid r; errors := errors r;
             warnings := warnings r ++ card_warning d;
             data := apply_update (data r) ("card_last_4", card_update d) |}.
Proof.
  unfold validate_card, card_update, card_warning, card_digits, apply_update.
  destruct (truthy (Dict.get d "card_last_4")) eqn:T; simpl.
  - rewrite (getitem_truthy _ _ T). simpl.
    destruct (String.length _ =? 4)%nat; destruct r; simpl;
      unfold set_data, add_warning; simpl; rewrite ?app_nil_r; reflexivity.
  - destruct r; simpl. rewrite app_nil_r. reflexivity.
Qed.

Lemma validate_date_eq (d : dict) (r : ValidationResult) (f : string) :
  validate_date d r f = Returns (maybe_set r f (date_update d f)).
Proof.
  unfold validate_date, date_update, maybe_set, apply_update.
  destruct (truthy (Dict.get d f)) eqn:T; simpl.
  - rewrite (getitem_truthy _ _ T). simpl.
    destruct (clean_date_returns (Dict.get d f)) as [o Ho]. rewrite Ho. simpl.
    destruct o as [[| a c] |]; simpl; try reflexivity; destruct r; reflexivity.
  - destruct r; reflexivity.
Qed.

Lemma validate_amount_eq (d : dict) (r : ValidationResult) (f : string) :
  validate_amount d r f = Returns (maybe_set r f (amount_update d f)).
Proof.
  unfold validate_amount, amount_update, maybe_set, apply_update.
  destruct (is_not_none (Dict.get d f)) eqn:T; simpl.
  - rewrite (getitem_not_none _ _ T). simpl.
    destruct (clean_amount_returns (Dict.get d f)) as [o Ho]. rewrite Ho. simpl.
    destruct o; simpl; try reflexivity; destruct r; reflexivity.
  - destruct (Dict.get d f); try discriminate. simpl. destruct r; reflexivity.
Qed.

Lemma for_each_fields (step : ValidationResult -> string -> outcome ValidationResult)
    (upd : string -> option value) (fs : list string) :
  (forall r f, step r f = Returns (maybe_set r f (upd f))) ->
  forall r,
    for_each fs step r =
    Returns {| is_valid := is_valid r; errors := errors r; warnings := warnings r;
               data := fold_left apply_update (List.map (fun f => (f, upd f)) fs) (data r) |}.
Proof.
  intros Hstep. induction fs as [| f fs IH]; intros r; simpl.
  - destruct r; reflexivity.
  - rewrite Hstep. simpl. rewrite IH. reflexivity.
Qed.

Lemma setitem_same (d : dict) (k : string) :
  Dict.contains d k = true -> Dict.setitem d k (Dict.get d k) = d.
Proof.
  induction d as [| [k0 v0] d IH]; simpl; [discriminate |].
  destruct (String.eqb k0 k); simpl; intros H; [reflexivity |].
  f_equal. apply IH, H.
Qed.

Lemma clean_txn_eq (acc : list value) (txn : value) :
  clean_txn acc txn =
  Returns (if has_description txn then acc ++ [normalize_txn txn] else acc)%list.
Proof.
  unfold clean_txn, has_description, normalize_txn.
  destruct txn as [| | | | | | t]; try reflexivity.
  destruct (truthy (Dict.get t "description")); [| reflexivity].
  destruct (Dict.contains t "amount") eqn:C; [| reflexivity].
  rewrite (getitem_contains _ _ C). simpl.
  rewrite normalize_amount_eq.
  destruct (clean_amount_returns (Dict.get t "amount")) as [o Ho]. rewrite Ho.
  destruct o; simpl; [reflexivity |].
  rewrite (setitem_same _ _ C). reflexivity.
Qed.

Lemma for_each_clean_txn (items acc : list value) :
  for_each items clean_txn acc =
  Returns (acc ++ List.map normalize_txn (List.filter has_description items))%list.
Proof.
  revert acc. induction items as [| x items IH]; intros acc; simpl.
  - rewrite app_nil_r. reflexivity.
  - rewrite clean_txn_eq. simpl. rewrite IH.
    destruct (has_description x); simpl; [| reflexivity].
    rewrite <- app_assoc. reflexivity.
Qed.

Lemma iterate_iterable (d : dict) :
  truthy (Dict.get d "transactions") = true ->
  transactions_iterable d = true ->
  exists items, iterate (Dict.get d "transactions") = Returns items.
Proof.
  unfold transactions_iterable.
  destruct (Dict.get d "transactions"); simpl; intros T I;
    try discriminate; try (rewrite T in I; discriminate); eexists; reflexivity.
Qed.

Lemma validate_transactions_eq (d : dict) (r : ValidationResult) :
  transactions_iterable d = true ->
  validate_transactions d r =
  Returns (maybe_set r "transactions" (transactions_update d)).
Proof.
  intros I. unfold validate_transactions, transactions_update, maybe_set, apply_update.
  destruct (truthy (Dict.get d "transactions")) eqn:T; simpl.
  - rewrite (getitem_truthy _ _ T). simpl.
    destruct (iterate_iterable d T I) as [items Hi]. rewrite Hi. simpl.
    rewrite for_each_clean_txn. reflexivity.
  - destruct r; reflexivity.
Qed.

Lemma validate_transactions_raises (d : dict) (r : ValidationResult) :
  transactions_iterable d = false ->
  validate_transactions d r = Raises (TypeError "object is not iterable").
Proof.
  unfold validate_transactions, transactions_iterable.
  destruct (Dict.get d "transactions") eqn:G; simpl; try discriminate;
    intros T; apply negb_false_iff in T; simpl in T; rewrite ?T;
    rewrite (getitem_truthy d "transactions") by (rewrite G; exact T);
    rewrite G; reflexivity.
Qed.

(** [validate] returns exactly when the transactions can be walked, and
    then it returns [validated]. *)
Lemma validate_eq (d : dict) :
  validate d =
  if transactions_iterable d then Returns (validated d)
  else Raises (TypeError "object is not iterable").
Proof.
  unfold validate. rewrite validate_card_eq. cbn [bind].
  rewrite (for_each_fields _ (date_update d)) by (intros; apply validate_date_eq).
  cbn [bind].
  rewrite (for_each_fields _ (amount_update d)) by (intros; apply validate_amount_eq).
  cbn [bind].
  destruct (transactions_iterable d) eqn:I.
  - rewrite validate_transactions_eq by exact I. cbn [bind].
    unfold validated, check_critical, critical_warnings, maybe_set, updates.
    destruct (truthy (Dict.get d "card_issuer"));
      destruct (truthy (Dict.get d "total_balance"));
      unfold add_warning; cbn [negb is_valid errors warnings data];
      match goal with
      | |- Returns (mkresult _ _ ?w1 _) = Returns (mkresult _ _ ?w2 _) =>
          replace w1 with w2
            by (cbn [app]; rewrite <- ?app_assoc, ?app_nil_r; reflexivity)
      end; reflexivity.
  - rewrite validate_transactions_raises by exact I. reflexivity.
Qed.

Lemma get_apply_update (d : dict) (u : string * option value) (k : string) :
  Dict.get (apply_update d u) k =
  match snd u with
  | Some v => if String.eqb (fst u) k then v else Dict.get d k
  | None => Dict.get d k
  end.
Proof.
  unfold apply_update. destruct (snd u); [apply get_setitem | reflexivity].
Qed.

Lemma get_fold_updates (us : list (string * option value)) (d : dict) (k : string) :
  Dict.get (fold_left apply_update us d) k =
  match updated us k with
  | Some v => v
  | None => Dict.get d k
  end.
Proof.
  revert d. induction us as [| [k' o] us IH]; intros d; simpl; [reflexivity |].
  rewrite IH. destruct (updated us k); [reflexivity |].
  rewrite get_apply_update. simpl.
  destruct o; destruct (String.eqb k' k); reflexivity.
Qed.

Lemma keys_fold_updates (us : list (string * option value)) (d : dict) :
  (forall k v, In (k, Some v) us -> Dict.contains d k = true) ->
  Dict.keys (fold_left apply_update us d) = Dict.keys d.
Proof.
  revert d. induction us as [| [k o] us IH]; intros d H; simpl; [reflexivity |].
  assert (E : Dict.keys (apply_update d (k, o)) = Dict.keys d).
  { unfold apply_update; simpl. destruct o; [| reflexivity].
    apply keys_setitem, (H k v). left. reflexivity. }
  rewrite IH; [exact E |].
  intros k' v' Hin. apply contains_keys. rewrite E. apply contains_keys.
  apply (H k' v'). right. exact Hin.
Qed.

Lemma clean_amount_none : _clean_amount VNone = Returns None.
Proof. reflexivity. Qed.

Lemma updates_contained (d : dict) (k : string) (v : value) :
  In (k, Some v) (updates d) -> Dict.contains d k = true.
Proof.
  unfold updates, date_fields, amount_fields. simpl.
  intros H.
  repeat match goal with
         | H : _ \/ _ |- _ => destruct H as [H | H]
         | H : False |- _ => destruct H
         end;
    injection H as <- H; apply get_contains.
  - unfold card_update in H.
    destruct (truthy (Dict.get d "card_last_4")) eqn:T; [| discriminate].
    apply truthy_not_none, T.
  - unfold date_update in H.
    destruct (truthy (Dict.get d "payment_due_date")) eqn:T; [| discriminate].
    apply truthy_not_none, T.
  - unfold date_update in H.
    destruct (truthy (Dict.get d "billing_cycle_start")) eqn:T; [| discriminate].
    apply truthy_not_none, T.
  - unfold date_update in H.
    destruct (truthy (Dict.get d "billing_cycle_end")) eqn:T; [| discriminate].
    apply truthy_not_none, T.
  - unfold amount_update in H. intros E. rewrite E in H. discriminate.
  - unfold amount_update in H. intros E. rewrite E in H. discriminate.
  - unfold amount_update in H. intros E. rewrite E in H. discriminate.
  - unfold amount_update in H. intros E. rewrite E in H. discriminate.
  - unfold amount_update in H. intros E. rewrite E in H. discriminate.
  - unfold amount_update in H. intros E. rewrite E in H. discriminate.
  - unfold transactions_update in H.
    destruct (truthy (Dict.get d "transactions")) eqn:T; [| discriminate].
    apply truthy_not_none, T.
Qed.

Lemma validate_returns (d : dict) (r : ValidationResult) :
  validate d = Returns r -> transactions_iterable d = true /\ r = validated d.
Proof.
  rewrite validate_eq. destruct (transactions_iterable d); [| discriminate].
  intros H. injection H as <-. split; reflexivity.
Qed.

(** [validate] returns exactly on the inputs whose transactions can be
    walked. *)
Lemma validate_returns_iff (d : dict) :
  (exists r, validate d = Returns r) <-> transactions_iterable d = true.
Proof.
  rewrite validate_eq. destruct (transactions_iterable d); split; intros H.
  - reflexivity.
  - eexists; reflexivity.
  - destruct H as [r H]. discriminate.
  - discriminate.
Qed.

(** Every result that is returned is flagged valid and has no error. *)
Lemma validate_flags (d : dict) (r : ValidationResult) :
  validate d = Returns r -> is_valid r = true /\ errors r = [].
Proof.
  intros H. apply validate_returns in H as [_ ->]. split; reflexivity.
Qed.

Lemma validate_keys (d : dict) (r : ValidationResult) :
  validate d = Returns r -> Dict.keys (data r) = Dict.keys d.
Proof.
  intros H. apply validate_returns in H as [_ ->].
  unfold validated; cbn [data].
  apply keys_fold_updates, updates_contained.
Qed.

Lemma validate_get (d : dict) (r : ValidationResult) (k : string) :
  validate d = Returns r ->
  Dict.get (data r) k =
  match updated (updates d) k with
  | Some v => v
  | None => Dict.get d k
  end.
Proof.
  intros H. apply validate_returns in H as [_ ->].
  unfold validated; cbn [data].
  apply get_fold_updates.
Qed.

(** The two advisory warnings follow the truth value of the field. *)
Lemma validate_warnings (d : dict) (r : ValidationResult) :
  validate d = Returns r ->
  (In "Could not identify card issuer" (warnings r)
   <-> truthy (Dict.get d "card_issuer") = false)
  /\ (In "Could not find total balance" (warnings r)
      <-> truthy (Dict.get d "total_balance") = false).
Proof.
  intros H. apply validate_returns in H as [_ ->].
  unfold validated; cbn [warnings].
  unfold card_warning, critical_warnings.
  destruct (truthy (Dict.get d "card_last_4") && _);
    destruct (truthy (Dict.get d "card_issuer"));
    destruct (truthy (Dict.get d "total_balance")); simpl;
    split; split; intros H; try reflexivity; try discriminate; auto;
    repeat match goal with
           | H : _ \/ _ |- _ => destruct H as [H | H]
           | H : False |- _ => destruct H
           | H : _ = _ |- _ => discriminate H
           end.
Qed.

Lemma updated_notin (us : list (string * option value)) (k : string) :
  ~ In k (List.map fst us) -> updated us k = None.
Proof.
  induction us as [| [k' o] us IH]; simpl; [reflexivity |].
  intros H. rewrite IH by tauto.
  destruct (String.eqb k' k) eqn:E; [| reflexivity].
  apply String.eqb_eq in E. tauto.
Qed.

Lemma updated_in (us : list (string * option value)) (k : string) (o : option value) :
  List.NoDup (List.map fst us) -> In (k, o) us -> updated us k = o.
Proof.
  induction us as [| [k' o'] us IH]; simpl; [tauto |].
  intros N H. apply List.NoDup_cons_iff in N as [N1 N2].
  destruct H as [H | H].
  - injection H as -> ->. rewrite (updated_notin us k N1), String.eqb_refl.
    reflexivity.
  - rewrite (IH N2 H). destruct o; [reflexivity |].
    destruct (String.eqb k' k) eqn:E; [| reflexivity].
    apply String.eqb_eq in E. subst k'.
    exfalso. apply N1. apply (in_map fst) in H. exact H.
Qed.

Lemma updates_nodup (d : dict) : List.NoDup (List.map fst (updates d)).
Proof.
  unfold updates, date_fields, amount_fields. simpl.
  repeat (apply List.NoDup_cons; [simpl; intuition discriminate |]).
  apply List.NoDup_nil.
Qed.

Lemma updated_card (d : dict) :
  updated (updates d) "card_last_4" = card_update d.
Proof. apply updated_in; [apply updates_nodup | left; reflexivity]. Qed.

Lemma updated_date (d : dict) (f : string) :
  In f date_fields -> updated (updates d) f = date_update d f.
Proof.
  intros H. apply updated_in; [apply updates_nodup |].
  unfold updates. right. apply in_or_app. left.
  apply (in_map (fun f => (f, date_update d f))), H.
Qed.

Lemma updated_amount (d : dict) (f : string) :
  In f amount_fields -> updated (updates d) f = amount_update d f.
Proof.
  intros H. apply updated_in; [apply updates_nodup |].
  unfold updates. right. apply in_or_app. right. apply in_or_app. left.
  apply (in_map (fun f => (f, amount_update d f))), H.
Qed.

Lemma updated_transactions (d : dict) :
  updated (updates d) "transactions" = transactions_update d.
Proof.
  apply updated_in; [apply updates_nodup |].
  unfold updates. right. apply in_or_app. right. apply in_or_app. right.
  left. reflexivity.
Qed.

(** ** Transactions *)

Lemma normalize_txn_dict (t : dict) :
  exists t',
    normalize_txn (VDict t) = VDict t'
    /\ Dict.keys t' = Dict.keys t
    /\ (forall k, k <> "amount" -> Dict.get t' k = Dict.get t k)
    /\ Dict.get t' "amount" = normalize_amount (Dict.get t "amount").
Proof.
  unfold normalize_txn.
  destruct (Dict.contains t "amount") eqn:C.
  - eexists. split; [reflexivity |]. split; [apply keys_setitem, C |]. split.
    + intros k Hk. rewrite get_setitem.
      destruct (String.eqb "amount" k) eqn:E; [| reflexivity].
      apply String.eqb_eq in E. congruence.
    + rewrite get_setitem. reflexivity.
  - exists t. repeat split; try reflexivity.
    assert (G : Dict.get t "amount" = VNone).
    { destruct (Dict.get t "amount") eqn:G; try reflexivity;
        rewrite get_contains in C by (rewrite G; discriminate); discriminate. }
    rewrite G. reflexivity.
Qed.

Lemma validate_transactions_list (d : dict) (r : ValidationResult) (txns : list value) :
  validate d = Returns r ->
  Dict.get d "transactions" = VList txns ->
  Dict.get (data r) "transactions" =
  VList (List.map normalize_txn (List.filter has_description txns)).
Proof.
  intros H G. rewrite (validate_get d r _ H), updated_transactions.
  unfold transactions_update. rewrite G.
  destruct txns; reflexivity.
Qed.

(** C4: the transactions of the validated record are the entries of the
    input list that have a non-empty description, in their order, each
    with its amount put through the monetary rule; an entry keeps its
    fields and every value but the amount. *)
Theorem C4_transaction_cleaning (d : dict) (r : ValidationResult) (txns : list value) :
  validate d = Returns r ->
  Dict.get d "transactions" = VList txns ->
  Dict.get (data r) "transactions" =
    VList (List.map normalize_txn (List.filter has_description txns))
  /\ (forall txn, has_description txn = true ->
      exists t t', txn = VDict t /\ normalize_txn txn = VDict t'
        /\ Dict.keys t' = Dict.keys t
        /\ (forall k, k <> "amount" -> Dict.get t' k = Dict.get t k)
        /\ Dict.get t' "amount" = normalize_amount (Dict.get t "amount"))
  /\ (forall f, In f amount_fields ->
      Dict.get (data r) f = normalize_amount (Dict.get d f)).
Proof.
  intros H G. split; [apply (validate_transactions_list d r txns H G) |]. split.
  - intros txn Hd. destruct txn as [| | | | | | t]; try discriminate.
    destruct (normalize_txn_dict t) as (t' & E & K & O & A).
    exists t, t'. auto.
  - intros f Hf. rewrite (validate_get d r f H), (updated_amount d f Hf).
    unfold amount_update, normalize_amount.
    destruct (_clean_amount (Dict.get d f)) as [[x |] | e]; reflexivity.
Qed.

Lemma sample_statement_validates :
  validate sample_statement = Returns (validated sample_statement).
Proof. vm_compute. reflexivity. Qed.

Lemma C4_transaction_cleaning_witness :
  validate sample_statement = Returns (validated sample_statement)
  /\ Dict.get (data (validated sample_statement)) "transactions" =
     VList [VDict [("date", VStr "03/01/2024"); ("description", VStr "Coffee");
                   ("amount", VFloat (S754_finite false 5066549580791808 (-50)))];
            VDict [("description", VStr "Refund");
                   ("amount", VFloat (S754_finite true 7036874417766400 (-45)))]].
Proof.
  split; [exact sample_statement_validates |].
  refine (eq_trans
            (proj1 (C4_transaction_cleaning sample_statement _ _
                      sample_statement_validates eq_refl)) _).
  vm_compute. reflexivity.
Defined.

(** ** Fields are kept *)

Lemma Forall2_map_self {A B} (R : A -> B -> Prop) (f : A -> B) (xs : list A) :
  (forall x, In x xs -> R x (f x)) -> Forall2 R xs (List.map f xs).
Proof.
  induction xs as [| x xs IH]; simpl; intros H; constructor.
  - apply H. left. reflexivity.
  - apply IH. intros y Hy. apply H. right. exact Hy.
Qed.

(** C6: every field of the input is a field of the normalised data (the
    two have the same fields, in the same order), and each transaction
    that is kept has the fields it came with; only the entries without a
    description leave the list. *)
Theorem C6_fields_preserved (d : dict) (r : ValidationResult) :
  validate d = Returns r ->
  Dict.keys (data r) = Dict.keys d
  /\ (forall k, In k (Dict.keys d) -> In k (Dict.keys (data r)))
  /\ (forall txns, Dict.get d "transactions" = VList txns ->
      exists out,
        Dict.get (data r) "transactions" = VList out
        /\ Forall2 (fun txn txn' =>
                      exists t t', txn = VDict t /\ txn' = VDict t'
                                   /\ Dict.keys t' = Dict.keys t)
                   (List.filter has_description txns) out).
Proof.
  intros H. pose proof (validate_keys d r H) as K.
  split; [exact K |]. split; [intros k Hk; rewrite K; exact Hk |].
  intros txns G. eexists. split; [apply (validate_transactions_list d r txns H G) |].
  apply Forall2_map_self. intros x Hx. apply filter_In in Hx as [_ Hx].
  destruct x as [| | | | | | t]; try discriminate.
  destruct (normalize_txn_dict t) as (t' & E & K' & _).
  exists t, t'. auto.
Qed.

Lemma C6_fields_preserved_witness :
  validate sample_statement = Returns (validated sample_statement)
  /\ Dict.keys (data (validated sample_statement)) = Dict.keys sample_statement.
Proof.
  split; [exact sample_statement_validates |].
  exact (proj1 (C6_fields_preserved sample_statement _ sample_statement_validates)).
Defined.

(** ** The card suffix *)

(** C3, as the code has it: a card value that counts as true is replaced
    by its digits when there are exactly four of them, and is otherwise
    kept with the warning recorded; a value that counts as false (absent,
    [None], empty, zero) is kept and no warning about it is recorded. *)
Theorem C3_card_suffix (d : dict) (r : ValidationResult) :
  validate d = Returns r ->
  let v := Dict.get d "card_last_4" in
  let digits := Str.filter Str.isdigit (Repr.str v) in
  let warning := "Card last 4 digits format issue" in
  (truthy v = true -> String.length digits = 4%nat ->
   Dict.get (data r) "card_last_4" = VStr digits /\ ~ In warning (warnings r))
  /\ (truthy v = true -> String.length digits <> 4%nat ->
      Dict.get (data r) "card_last_4" = v /\ In warning (warnings r))
  /\ (truthy v = false ->
      Dict.get (data r) "card_last_4" = v /\ ~ In warning (warnings r)).
Proof.
  intros H v digits warning.
  rewrite (validate_get d r _ H), updated_card.
  apply validate_returns in H as [_ ->].
  unfold validated; cbn [warnings].
  unfold card_update, card_warning, card_digits, critical_warnings.
  fold v. fold digits.
  assert (N : forall a b : list string,
             (forall x, In x a -> x <> warning) ->
             (forall x, In x b -> x <> warning) -> ~ In warning (a ++ b)%list).
  { intros a b Ha Hb Hin. apply in_app_or in Hin as [Hin | Hin];
      [apply (Ha _ Hin) | apply (Hb _ Hin)]; reflexivity. }
  assert (C : ~ In warning
                ((if truthy (Dict.get d "card_issuer") then []
                  else ["Could not identify card issuer"])
                 ++ (if truthy (Dict.get d "total_balance") then []
                     else ["Could not find total balance"]))%list).
  { destruct (truthy (Dict.get d "card_issuer"));
      destruct (truthy (Dict.get d "total_balance")); simpl;
      unfold warning; intuition discriminate. }
  repeat split.
  - rewrite H. apply Nat.eqb_eq in H0. rewrite H0. reflexivity.
  - rewrite H. apply Nat.eqb_eq in H0. rewrite H0. simpl. exact C.
  - rewrite H. apply Nat.eqb_neq in H0. rewrite H0. reflexivity.
  - rewrite H. apply Nat.eqb_neq in H0. rewrite H0. simpl. left. reflexivity.
  - rewrite H. reflexivity.
  - rewrite H. simpl. exact C.
Qed.

Lemma C3_card_suffix_witness :
  validate statement_with_long_suffix
  = Returns (validated statement_with_long_suffix)
  /\ Dict.get (data (validated statement_with_long_suffix)) "card_last_4"
     = VStr "xxxx-4532-1"
  /\ In "Card last 4 digits format issue"
        (warnings (validated statement_with_long_suffix)).
Proof.
  assert (H : validate statement_with_long_suffix
              = Returns (validated statement_with_long_suffix))
    by (vm_compute; reflexivity).
  split; [exact H |].
  refine (proj1 (proj2 (C3_card_suffix _ _ H)) eq_refl _).
  vm_compute. discriminate.
Defined.

(** An empty suffix leaves no digit at all, and yet nothing is recorded. *)
Lemma C3_counterexample :
  String.length
    (Str.filter Str.isdigit
       (Repr.str (Dict.get statement_with_empty_suffix "card_last_4"))) <> 4%nat
  /\ exists r, validate statement_with_empty_suffix = Returns r
               /\ Dict.get (data r) "card_last_4" = VStr ""
               /\ warnings r = [].
Proof.
  split; [vm_compute; discriminate |].
  eexists. split; [vm_compute; reflexivity |]. split; reflexivity.
Qed.

(** ** Failures of [validate] *)

(** C5, at the input on which it fails: a transactions field that counts
    as true and cannot be walked makes [validate] raise. *)
Theorem C5_validate_raises :
  validate [("card_issuer", VStr "Chase"); ("transactions", VInt 5)]
  = Raises (TypeError "object is not iterable").
Proof. vm_compute. reflexivity. Qed.

(** C8, at the input on which it fails: a balance of zero is reported as
    not found. *)
Theorem C8_zero_balance_reported_missing :
  Dict.contains [("card_issuer", VStr "Chase"); ("total_balance", VInt 0)]
                "total_balance" = true
  /\ validate [("card_issuer", VStr "Chase"); ("total_balance", VInt 0)]
     = Returns {| is_valid := true; errors := [];
                  warnings := ["Could not find total balance"];
                  data := [("card_issuer", VStr "Chase");
                           ("total_balance", VFloat (S754_zero false))] |}.
Proof. split; vm_compute; reflexivity. Qed.

(** ** [_clean_amount] *)

(** C10: whatever it is given, [_clean_amount] returns, a float or
    [None]; what is neither a number nor a string gives [None]. *)
Theorem C10_clean_amount_total (v : value) :
  (exists o : option Float.float, _clean_amount v = Returns o)
  /\ match v with
     | VBool _ | VInt _ | VFloat _ | VStr _ => True
     | VNone | VList _ | VDict _ => _clean_amount v = Returns None
     end.
Proof.
  split; [apply clean_amount_returns |].
  destruct v; try exact I; reflexivity.
Qed.

(** *** Strings *)

Lemma filter_app (p : ascii -> bool) (a b : string) :
  Str.filter p (a ++ b) = (Str.filter p a ++ Str.filter p b)%string.
Proof.
  induction a as [| c a IH]; simpl; [reflexivity |].
  rewrite IH. destruct (p c); reflexivity.
Qed.

Lemma filter_lstrip (p q : ascii -> bool) (s : string) :
  (forall c, q c = true -> p c = false) ->
  Str.filter p (Str.lstrip_by q s) = Str.filter p s.
Proof.
  intros H. induction s as [| c s IH]; simpl; [reflexivity |].
  destruct (q c) eqn:Q; simpl; [| reflexivity].
  rewrite (H c Q). exact IH.
Qed.

Lemma filter_rstrip (p q : ascii -> bool) (s : string) :
  (forall c, q c = true -> p c = false) ->
  Str.filter p (Str.rstrip_by q s) = Str.filter p s.
Proof.
  intros H. induction s as [| c s IH]; simpl; [reflexivity |].
  destruct (Str.rstrip_by q s) as [| c' r] eqn:R.
  - simpl in IH. rewrite <- IH.
    destruct (q c) eqn:Q; simpl; [rewrite (H c Q) |]; reflexivity.
  - simpl. simpl in IH. rewrite IH. reflexivity.
Qed.

Lemma sub_symbols_strip (s : string) :
  sub_symbols (Str.strip s) = sub_symbols s.
Proof.
  unfold sub_symbols, Str.strip.
  rewrite filter_rstrip, filter_lstrip; try reflexivity;
    intros c Hc; rewrite Hc, !orb_true_r; reflexivity.
Qed.

Lemma all_filter_id (p : ascii -> bool) (s : string) :
  Str.all p s = true -> Str.filter p s = s.
Proof.
  induction s as [| c s IH]; simpl; [reflexivity |].
  intros H. apply andb_true_iff in H as [Hc Hs]. rewrite Hc, (IH Hs). reflexivity.
Qed.


Lemma all_filter_self (p : ascii -> bool) (s : string) :
  Str.all p (Str.filter p s) = true.
Proof.
  induction s as [| c s IH]; simpl; [reflexivity |].
  destruct (p c) eqn:E; simpl; [rewrite E |]; exact IH.
Qed.


Lemma all_app (p : ascii -> bool) (a b : string) :
  Str.all p (a ++ b) = Str.all p a && Str.all p b.
Proof.
  induction a as [| c a IH]; simpl; [reflexivity |].
  rewrite IH, andb_assoc. reflexivity.
Qed.


Lemma lstrip_none (p : ascii -> bool) (s : string) :
  Str.all (fun c => negb (p c)) s = true -> Str.lstrip_by p s = s.
Proof.
  destruct s as [| c s]; simpl; [reflexivity |].
  intros H. apply andb_true_iff in H as [Hc _].
  apply negb_true_iff in Hc. rewrite Hc. reflexivity.
Qed.

Lemma rstrip_none (p : ascii -> bool) (s : string) :
  Str.all (fun c => negb (p c)) s = true -> Str.rstrip_by p s = s.
Proof.
  induction s as [| c s IH]; simpl; [reflexivity |].
  intros H. apply andb_true_iff in H as [Hc Hs].
  rewrite (IH Hs). apply negb_true_iff in Hc. rewrite Hc.
  destruct s; reflexivity.
Qed.

Lemma rstrip_last (p : ascii -> bool) (s : string) (c : ascii) :
  p c = false ->
  Str.rstrip_by p (s ++ String c "") = (s ++ String c "")%string.
Proof.
  intros Hc. induction s as [| a s IH]; simpl.
  - rewrite Hc. reflexivity.
  - rewrite IH. destruct s; reflexivity.
Qed.

(** *** A minus sign in front of a numeral *)











(** *** Amounts *)

Lemma clean_amount_str (s : string) :
  _clean_amount (VStr s) =
  Returns match Float.of_str (amount_text s) with
          | Returns f => Some f
          | Raises _ => None
          end.
Proof.
  unfold _clean_amount, amount_text. rewrite sub_symbols_strip.
  destruct (Float.of_str _); reflexivity.
Qed.











Lemma clean_amount_huge_int : _clean_amount (VInt (10 ^ 400)) = Returns None.
Proof. vm_compute. reflexivity. Qed.

(** ** Dates *)

Lemma try_formats_first (s : string) (fmts : list string) (i : nat)
    (fmt : string) (dt : Datetime.date) :
  nth_error fmts i = Some fmt ->
  Datetime.strptime s fmt = Returns dt ->
  (forall j fmt', (j < i)%nat -> nth_error fmts j = Some fmt' ->
                  exists e, Datetime.strptime s fmt' = Raises e) ->
  try_formats s fmts = Some (Datetime.strftime_ymd dt).
Proof.
  revert i. induction fmts as [| f0 fmts IH]; intros i Hi Hp Hj.
  - destruct i; discriminate.
  - destruct i as [| i]; simpl in *.
    + injection Hi as ->. rewrite Hp. reflexivity.
    + destruct (Hj O f0) as [e He]; [lia | reflexivity |]. rewrite He.
      apply (IH i Hi Hp). intros j fmt' Hlt Hn.
      apply (Hj (S j) fmt'); [lia | exact Hn].
Qed.

Lemma try_formats_none (s : string) (fmts : list string) :
  (forall fmt, In fmt fmts -> exists e, Datetime.strptime s fmt = Raises e) ->
  try_formats s fmts = None.
Proof.
  induction fmts as [| f0 fmts IH]; intros H; simpl; [reflexivity |].
  destruct (H f0) as [e He]; [left; reflexivity |]. rewrite He.
  apply IH. intros fmt Hin. apply H. right. exact Hin.
Qed.

Lemma clean_date_str (s : string) :
  s <> EmptyString ->
  _clean_date (VStr s) =
  Returns (Some match try_formats (Str.strip s) formats with
                | Some iso => iso
                | None => s
                end).
Proof.
  intros N. unfold _clean_date. destruct s; [congruence |]. simpl truthy.
  cbv iota. simpl Repr.str. simpl negb. cbv iota.
  destruct (try_formats _ formats); reflexivity.
Qed.

Lemma in_range_forallb (p : Z -> bool) (lo hi n : Z) :
  forallb (fun k => p (lo + Z.of_nat k)) (seq 0 (Z.to_nat (hi - lo + 1))) = true ->
  lo <= n <= hi -> p n = true.
Proof.
  intros H Hn. rewrite forallb_forall in H.
  specialize (H (Z.to_nat (n - lo))). rewrite Z2Nat.id in H by lia.
  replace (lo + (n - lo)) with n in H by lia.
  apply H. apply in_seq. lia.
Qed.

Lemma year_digits (y : Z) :
  1000 <= y <= 9999 -> four_digits (Repr.of_int y) = true.
Proof.
  apply (in_range_forallb (fun n => four_digits (Repr.of_int n)) 1000 9999).
  vm_compute. reflexivity.
Qed.

(** Below 1000 the year is written on fewer than four characters. *)
Lemma short_year_length (y : Z) :
  1 <= y <= 999 -> (String.length (Repr.of_int y) <? 4)%nat = true.
Proof.
  apply (in_range_forallb
           (fun n => (String.length (Repr.of_int n) <? 4)%nat) 1 999).
  vm_compute. reflexivity.
Qed.

Lemma pad_month_day (n : Z) : 1 <= n <= 31 -> two_digits (Datetime.pad 2 n) = true.
Proof.
  apply (in_range_forallb (fun n => two_digits (Datetime.pad 2 n)) 1 31).
  vm_compute. reflexivity.
Qed.

Lemma days_in_month_le (y m : Z) : Datetime.days_in_month y m <= 31.
Proof.
  unfold Datetime.days_in_month.
  destruct (m =? 2); [destruct (Datetime.is_leap y); lia |].
  destruct ((m =? 4) || (m =? 6) || (m =? 9) || (m =? 11)); lia.
Qed.

Lemma valid_date_bounds (dt : Datetime.date) :
  Datetime.valid_date dt = true ->
  1 <= Datetime.year dt <= 9999 /\ 1 <= Datetime.month dt <= 12
  /\ 1 <= Datetime.day dt <= 31.
Proof.
  unfold Datetime.valid_date. intros V.
  repeat (apply andb_true_iff in V as [V ?]).
  repeat match goal with
         | H : (_ <=? _) = true |- _ => apply Z.leb_le in H
         end.
  pose proof (days_in_month_le (Datetime.year dt) (Datetime.month dt)) as D.
  lia.
Qed.

(** From the year 1000 on, the text of a date of the calendar has the
    form [YYYY-MM-DD]. *)
Lemma strftime_ymd_shape (dt : Datetime.date) :
  Datetime.valid_date dt = true -> 1000 <= Datetime.year dt ->
  iso_shape (Datetime.strftime_ymd dt) = true.
Proof.
  intros V L. destruct (valid_date_bounds dt V) as (By & Bm & Bd).
  assert (Y : four_digits (Repr.of_int (Datetime.year dt)) = true)
    by (apply year_digits; lia).
  assert (M : two_digits (Datetime.pad 2 (Datetime.month dt)) = true)
    by (apply pad_month_day; lia).
  assert (Dd : two_digits (Datetime.pad 2 (Datetime.day dt)) = true)
    by (apply pad_month_day; lia).
  unfold Datetime.strftime_ymd.
  destruct (Repr.of_int (Datetime.year dt))
    as [| y1 [| y2 [| y3 [| y4 [| ? ?]]]]]; try discriminate.
  destruct (Datetime.pad 2 (Datetime.month dt)) as [| m1 [| m2 [| ? ?]]];
    try discriminate.
  destruct (Datetime.pad 2 (Datetime.day dt)) as [| d1 [| d2 [| ? ?]]];
    try discriminate.
  unfold four_digits, two_digits in *.
  cbv [String.append iso_shape].
  apply andb_true_iff in M as [M1 M2], Dd as [D1 D2].
  rewrite Y, M1, M2, D1, D2. reflexivity.
Qed.

Lemma length_append (a b : string) :
  String.length (a ++ b) = (String.length a + String.length b)%nat.
Proof.
  induction a as [| c a IH]; [reflexivity |].
  change (S (String.length (a ++ b)) = S (String.length a + String.length b)).
  f_equal. exact IH.
Qed.

Lemma iso_shape_length (s : string) :
  iso_shape s = true -> String.length s = 10%nat.
Proof.
  destruct s as [| c1 [| c2 [| c3 [| c4 [| c5 [| c6 [| c7 [| c8 [| c9
    [| c10 [| c11 s]]]]]]]]]]]; cbn [iso_shape]; try discriminate;
    try (intros _; reflexivity);
    destruct c5 as [[] [] [] [] [] [] [] []]; try discriminate;
    destruct c8 as [[] [] [] [] [] [] [] []]; discriminate.
Qed.

(** Below the year 1000 the text is shorter, and has not that form. *)
Lemma strftime_ymd_short (dt : Datetime.date) :
  Datetime.valid_date dt = true -> Datetime.year dt < 1000 ->
  iso_shape (Datetime.strftime_ymd dt) = false.
Proof.
  intros V L. destruct (valid_date_bounds dt V) as (By & Bm & Bd).
  destruct (iso_shape (Datetime.strftime_ymd dt)) eqn:S; [| reflexivity].
  apply iso_shape_length in S. exfalso.
  assert (Y : (String.length (Repr.of_int (Datetime.year dt)) <? 4)%nat = true)
    by (apply short_year_length; lia).
  apply Nat.ltb_lt in Y.
  assert (M : two_digits (Datetime.pad 2 (Datetime.month dt)) = true)
    by (apply pad_month_day; lia).
  assert (Dd : two_digits (Datetime.pad 2 (Datetime.day dt)) = true)
    by (apply pad_month_day; lia).
  unfold Datetime.strftime_ymd in S.
  destruct (Datetime.pad 2 (Datetime.month dt)) as [| m1 [| m2 [| ? ?]]];
    try discriminate.
  destruct (Datetime.pad 2 (Datetime.day dt)) as [| d1 [| d2 [| ? ?]]];
    try discriminate.
  rewrite length_append in S.
  match type of S with
  | (_ + String.length ?t)%nat = _ => change (String.length t) with 6%nat in S
  end.
  lia.
Qed.

Lemma strftime_ymd_nonempty (dt : Datetime.date) :
  Datetime.strftime_ymd dt <> EmptyString.
Proof.
  unfold Datetime.strftime_ymd.
  destruct (Repr.of_int (Datetime.year dt)); cbv [String.append]; discriminate.
Qed.

Lemma strptime_valid (s fmt : string) (dt : Datetime.date) :
  Datetime.strptime s fmt = Returns dt -> Datetime.valid_date dt = true.
Proof.
  unfold Datetime.strptime.
  destruct (Datetime.parse_format fmt); [| discriminate].
  destruct (Datetime.match_toks _ _ _) as [| [fs rest] ?]; [discriminate |].
  destruct rest; [| discriminate].
  destruct (Datetime.valid_date _) eqn:V; [| discriminate].
  intros H. injection H as <-. exact V.
Qed.

Lemma try_formats_nonempty (s : string) (fmts : list string) (c : string) :
  try_formats s fmts = Some c -> c <> EmptyString.
Proof.
  induction fmts as [| f0 fmts IH]; simpl; [discriminate |].
  destruct (Datetime.strptime s f0) as [dt | e] eqn:P; [| exact IH].
  intros H. injection H as <-. apply strftime_ymd_nonempty.
Qed.

Lemma validate_date_field (d : dict) (r : ValidationResult) (f s : string) :
  validate d = Returns r -> In f date_fields ->
  Dict.get d f = VStr s ->
  exists c, _clean_date (VStr s) = Returns c
            /\ Dict.get (data r) f
               = VStr match c with Some written => written | None => s end.
Proof.
  intros H Hf G.
  rewrite (validate_get d r f H), (updated_date d f Hf).
  unfold date_update. rewrite G.
  destruct s as [| a s].
  - exists None. split; reflexivity.
  - simpl truthy. cbv iota.
    rewrite clean_date_str by discriminate.
    eexists. split; [reflexivity |].
    destruct (try_formats _ formats) as [c |] eqn:T; [| reflexivity].
    apply try_formats_nonempty in T. destruct c; [congruence | reflexivity].
Qed.

(** C2: the text [0999-01-01] is read by the first format as the first of
    January of the year 999, and that date is written [999-01-01], which
    is not of the form [YYYY-MM-DD]; the validated record holds that text
    for the field, and none of the seven formats reads it. *)
Theorem C2_short_year_not_padded :
  nth_error formats 0 = Some "%Y-%m-%d"
  /\ Datetime.strptime "0999-01-01" "%Y-%m-%d" = Returns (Datetime.mkdate 999 1 1)
  /\ _clean_date (VStr "0999-01-01") = Returns (Some "999-01-01")
  /\ iso_shape "999-01-01" = false
  /\ (exists r, validate statement_with_short_year = Returns r
                /\ Dict.get (data r) "payment_due_date" = VStr "999-01-01")
  /\ Forall (fun fmt => exists e, Datetime.strptime "999-01-01" fmt = Raises e)
            formats.
Proof.
  split; [reflexivity |].
  split; [vm_compute; reflexivity |].
  split; [vm_compute; reflexivity |].
  split; [reflexivity |].
  split.
  - eexists. split; [vm_compute; reflexivity | reflexivity].
  - unfold formats.
    repeat (apply List.Forall_cons; [eexists; vm_compute; reflexivity |]).
    apply List.Forall_nil.
Qed.

(** ** The response of the model *)

Import GeminiParser.

Lemma get_drop (s : string) (n i : nat) :
  String.get i (Str.drop n s) = String.get (n + i) s.
Proof.
  revert s. induction n as [| n IH]; intros s; [reflexivity |].
  destruct s as [| c s]; simpl; [destruct i; reflexivity | apply IH].
Qed.

Lemma get_take (s : string) (n i : nat) :
  String.get i (Str.take n s) = if (i <? n)%nat then String.get i s else None.
Proof.
  revert s i. induction n as [| n IH]; intros s i; simpl.
  - destruct i; reflexivity.
  - destruct s as [| c s]; simpl; [destruct (i <? S n)%nat, i; reflexivity |].
    destruct i as [| i]; [reflexivity |]. apply IH.
Qed.

Lemma get_none (s : string) (i : nat) :
  (String.length s <= i)%nat -> String.get i s = None.
Proof.
  revert i. induction s as [| c s IH]; intros i H; simpl in *.
  - destruct i; reflexivity.
  - destruct i as [| i]; [lia |]. apply IH. lia.
Qed.

Lemma get_some (s : string) (i : nat) :
  (i < String.length s)%nat -> exists c, String.get i s = Some c.
Proof.
  revert i. induction s as [| c s IH]; intros i H; simpl in *; [lia |].
  destruct i as [| i]; [eexists; reflexivity |]. apply IH. lia.
Qed.

Lemma prefix_get (p s : string) :
  String.prefix p s = true <->
  forall i, (i < String.length p)%nat -> String.get i s = String.get i p.
Proof.
  revert s. induction p as [| a p IH]; intros s; simpl.
  - split; [intros _ i Hi; lia | destruct s; reflexivity].
  - destruct s as [| b s].
    + split; [discriminate |]. intros H. specialize (H O ltac:(lia)). discriminate.
    + simpl. destruct (ascii_dec a b) as [E | N].
      * subst b. rewrite IH. split; intros H i Hi.
        -- destruct i as [| i]; [reflexivity |]. simpl. apply H. lia.
        -- apply (H (S i)). lia.
      * split; [discriminate |]. intros H. specialize (H O ltac:(lia)).
        simpl in H. congruence.
Qed.

Lemma prefix_false_get (p s : string) :
  String.prefix p s = false <->
  exists i, (i < String.length p)%nat /\ String.get i s <> String.get i p.
Proof.
  revert s. induction p as [| a p IH]; intros s; simpl.
  - split; [destruct s; discriminate | intros [i [Hi _]]; lia].
  - destruct s as [| b s].
    + split; [| reflexivity]. intros _. exists O. split; [lia | discriminate].
    + simpl. destruct (ascii_dec a b) as [E | N].
      * subst b. rewrite IH. split; intros [i [Hi H]].
        -- exists (S i). split; [lia | exact H].
        -- destruct i as [| i]; [simpl in H; congruence |].
           exists i. split; [lia | exact H].
      * split; [| reflexivity]. intros _. exists O. split; [lia |].
        simpl. congruence.
Qed.

Lemma drop_drop (s : string) (n m : nat) :
  Str.drop m (Str.drop n s) = Str.drop (n + m) s.
Proof.
  revert s. induction n as [| n IH]; intros s; [reflexivity |].
  destruct s as [| c s]; simpl; [destruct m; reflexivity | apply IH].
Qed.

Lemma take_take (s : string) (n m : nat) :
  (m <= n)%nat -> Str.take m (Str.take n s) = Str.take m s.
Proof.
  revert s n. induction m as [| m IH]; intros s n H; [reflexivity |].
  destruct n as [| n]; [lia |]. destruct s as [| c s]; [reflexivity |].
  simpl. f_equal. apply IH. lia.
Qed.

Lemma take_all (s : string) (n : nat) :
  (String.length s <= n)%nat -> Str.take n s = s.
Proof.
  revert n. induction s as [| c s IH]; intros n H; [destruct n; reflexivity |].
  destruct n as [| n]; simpl in *; [lia |]. f_equal. apply IH. lia.
Qed.

(** [find] gives the first position at which the text occurs. *)
Lemma find_some (sub s : string) (n : nat) :
  find sub s = Some n <->
  String.prefix sub (Str.drop n s) = true
  /\ (forall i, (i < n)%nat -> String.prefix sub (Str.drop i s) = false)
  /\ (n <= String.length s)%nat.
Proof.
  revert n. induction s as [| c s IH]; intros n.
  - cbn [find]. destruct (String.prefix sub "") eqn:P.
    + split.
      * intros H. injection H as <-.
        repeat split; [exact P | lia | cbn [String.length]; lia].
      * intros (_ & _ & H). cbn [String.length] in H. f_equal. lia.
    + split; [discriminate |]. intros (H & _ & _).
      destruct n; cbn [Str.drop] in H; congruence.
  - cbn [find]. destruct (String.prefix sub (String c s)) eqn:P.
    + split.
      * intros H. injection H as <-.
        repeat split; [exact P | lia | cbn [String.length]; lia].
      * intros (_ & H & _). destruct n as [| n]; [reflexivity |].
        specialize (H O ltac:(lia)). cbn [Str.drop] in H. congruence.
    + destruct (find sub s) as [k |] eqn:F; cbn [option_map].
      * destruct (proj1 (IH k) eq_refl) as (F1 & F2 & F3). split.
        -- intros H. injection H as <-.
           repeat split; [exact F1 | | cbn [String.length]; lia].
           intros i Hi. destruct i as [| i]; [exact P | apply F2; lia].
        -- intros (H1 & H2 & H3). f_equal. destruct n as [| n].
           ++ cbn [Str.drop] in H1. congruence.
           ++ f_equal. cbn [Str.drop] in H1.
              destruct (Nat.lt_trichotomy n k) as [L | [E | L]];
                [| exact (eq_sym E) |].
              ** rewrite (F2 n L) in H1. discriminate.
              ** specialize (H2 (S k) ltac:(lia)). cbn [Str.drop] in H2.
                 congruence.
      * split; [discriminate |]. intros (H1 & H2 & H3).
        destruct n as [| n]; [cbn [Str.drop] in H1; congruence |].
        assert (E : @None nat = Some n).
        { apply IH. repeat split;
            [exact H1 | | cbn [String.length] in H3; lia].
          intros i Hi. apply (H2 (S i)). lia. }
        discriminate E.
Qed.

Lemma find_none (sub s : string) :
  find sub s = None <-> forall i, String.prefix sub (Str.drop i s) = false.
Proof.
  induction s as [| c s IH].
  - cbn [find]. destruct (String.prefix sub "") eqn:P.
    + split; [discriminate |]. intros H. specialize (H O).
      cbn [Str.drop] in H. congruence.
    + split; [| reflexivity]. intros _ i. destruct i; exact P.
  - cbn [find]. destruct (String.prefix sub (String c s)) eqn:P.
    + split; [discriminate |]. intros H. specialize (H O).
      cbn [Str.drop] in H. congruence.
    + destruct (find sub s) as [k |] eqn:F; cbn [option_map].
      * split; [discriminate |]. intros H.
        assert (E : Some k = None)
          by (apply IH; intros i; apply (H (S i))).
        discriminate E.
      * split; [| reflexivity]. intros _ i.
        destruct i as [| i]; [exact P |]. cbn [Str.drop]. apply IH. reflexivity.
Qed.

Lemma contains_find (sub s : string) :
  Str.contains sub s = match find sub s with Some _ => true | None => false end.
Proof.
  induction s as [| c s IH]; cbn [Str.contains find].
  - destruct (String.prefix sub ""); reflexivity.
  - destruct (String.prefix sub (String c s)); [reflexivity |].
    simpl. rewrite IH. destruct (find sub s); reflexivity.
Qed.

Lemma split_go_skip (sep s : string) (k : nat) :
  split_go sep s k = split_go sep (Str.drop k s) 0.
Proof.
  revert k. induction s as [| c s IH]; intros k.
  - destruct k; reflexivity.
  - destruct k as [| k]; [reflexivity |]. cbn [split_go Str.drop]. apply IH.
Qed.

Lemma split_find_none (sep s : string) :
  find sep s = None -> str_split sep s = [s].
Proof.
  unfold str_split. induction s as [| c s IH]; cbn [find split_go].
  - reflexivity.
  - destruct (String.prefix sep (String c s)); [discriminate |].
    destruct (find sep s); [discriminate |]. intros _.
    rewrite IH by reflexivity. reflexivity.
Qed.

Lemma split_find_some (sep s : string) (n : nat) :
  sep <> EmptyString ->
  find sep s = Some n ->
  str_split sep s
  = Str.take n s :: str_split sep (Str.drop (n + String.length sep) s).
Proof.
  intros N. unfold str_split. revert n.
  induction s as [| c s IH]; intros n; cbn [find split_go].
  - destruct sep; [congruence |]. discriminate.
  - destruct (String.prefix sep (String c s)).
    + intros H. injection H as <-. rewrite split_go_skip.
      destruct sep as [| a sep]; [congruence |].
      cbn [String.length Str.take Str.drop Nat.add Nat.sub].
      rewrite Nat.sub_0_r. reflexivity.
    + destruct (find sep s) as [k |]; [| discriminate].
      intros H. injection H as <-. rewrite (IH k eq_refl). reflexivity.
Qed.

Lemma index_split_0 (sep s : string) :
  sep <> EmptyString ->
  index (str_split sep s) 0
  = Returns match find sep s with Some n => Str.take n s | None => s end.
Proof.
  intros N. destruct (find sep s) as [n |] eqn:F.
  - rewrite (split_find_some sep s n N F). reflexivity.
  - rewrite (split_find_none sep s F). reflexivity.
Qed.

Lemma index_split_1 (sep s : string) (n : nat) :
  sep <> EmptyString ->
  find sep s = Some n ->
  index (str_split sep s) 1
  = index (str_split sep (Str.drop (n + String.length sep) s)) 0.
Proof.
  intros N F. rewrite (split_find_some sep s n N F). unfold index.
  cbn [nth_error]. reflexivity.
Qed.

Lemma length_take (s : string) (n : nat) :
  String.length (Str.take n s) = Nat.min n (String.length s).
Proof.
  revert s. induction n as [| n IH]; intros s; [reflexivity |].
  destruct s as [| c s]; [reflexivity |]. cbn [Str.take String.length].
  rewrite IH. reflexivity.
Qed.

(** Nothing occurs in what comes before its first occurrence. *)
Lemma find_take_first (sub s : string) (m : nat) :
  sub <> EmptyString -> find sub s = Some m -> find sub (Str.take m s) = None.
Proof.
  intros N F. apply find_some in F as (_ & F & _).
  apply find_none. intros i. apply prefix_false_get.
  destruct (Nat.lt_ge_cases i m) as [L | G].
  - destruct (proj1 (prefix_false_get _ _) (F i L)) as (k & Hk & Hne).
    exists k. split; [exact Hk |].
    rewrite get_drop, get_take. rewrite get_drop in Hne.
    destruct (i + k <? m)%nat; [exact Hne |].
    destruct (get_some sub k Hk) as [c ->]. discriminate.
  - exists O. destruct sub as [| a sub]; [congruence |].
    split; [cbn [String.length]; lia |].
    rewrite get_drop, get_take.
    replace (i + 0 <? m)%nat with false by (symmetry; apply Nat.ltb_ge; lia).
    discriminate.
Qed.

(** An occurrence that ends before the cut is still the first one. *)
Lemma find_take_before (sub s : string) (m j : nat) :
  find sub s = Some m -> (m + String.length sub <= j)%nat ->
  find sub (Str.take j s) = Some m.
Proof.
  intros F L. apply find_some in F as (F1 & F2 & F3). apply find_some.
  repeat split.
  - apply prefix_get. intros i Hi.
    rewrite get_drop, get_take.
    replace (m + i <? j)%nat with true by (symmetry; apply Nat.ltb_lt; lia).
    rewrite <- get_drop. apply (proj1 (prefix_get _ _) F1 i Hi).
  - intros i Hi. apply prefix_false_get.
    destruct (proj1 (prefix_false_get _ _) (F2 i Hi)) as (k & Hk & Hne).
    exists k. split; [exact Hk |].
    rewrite get_drop, get_take. rewrite get_drop in Hne.
    replace (i + k <? j)%nat with true by (symmetry; apply Nat.ltb_lt; lia).
    exact Hne.
  - rewrite length_take. lia.
Qed.

Lemma backtick_at (p s : string) (n k : nat) :
  String.prefix p (Str.drop n s) = true ->
  String.get k p = Some "`"%char ->
  String.get (n + k) s = Some "`"%char.
Proof.
  intros P G. rewrite <- G, <- get_drop.
  apply (proj1 (prefix_get _ _) P).
  destruct (Nat.lt_ge_cases k (String.length p)) as [L | L]; [exact L |].
  rewrite (get_none p k L) in G. discriminate.
Qed.

(** Between the label and the fence that closes the block, cutting at the
    next label first changes nothing. *)
Lemma fence_in_part (after : string) (j m : nat) :
  find json_fence after = Some j ->
  find fence after = Some m ->
  (j =? m + 1)%nat || (j =? m + 2)%nat = false ->
  match find fence (Str.take j after) with
  | Some m' => Str.take m' (Str.take j after)
  | None => Str.take j after
  end = Str.take m after.
Proof.
  intros J M Q.
  pose proof (proj1 (find_some _ _ _) J) as (J1 & _ & _).
  pose proof (proj1 (find_some _ _ _) M) as (M1 & M2 & _).
  assert (B : forall k, (k < 3)%nat -> String.get (j + k) after = Some "`"%char).
  { intros k Hk. apply (backtick_at json_fence _ _ _ J1).
    destruct k as [| [| [| k]]]; try reflexivity. lia. }
  assert (Lmj : (m <= j)%nat).
  { destruct (Nat.le_gt_cases m j) as [L | L]; [exact L |].
    specialize (M2 j L). apply prefix_false_get in M2 as (k & Hk & Hne).
    rewrite get_drop, (B k Hk) in Hne.
    destruct k as [| [| [| k]]]; cbn in Hk; try lia; cbn in Hne; congruence. }
  assert (D : m = j \/ (m + 3 <= j)%nat).
  { apply orb_false_iff in Q as [Q1 Q2].
    apply Nat.eqb_neq in Q1, Q2. lia. }
  destruct D as [-> | L].
  - rewrite (find_take_first fence after j) by (discriminate || exact M).
    reflexivity.
  - rewrite (find_take_before fence after m j M) by (cbn; lia).
    apply take_take. lia.
Qed.

Lemma json_fence_is_fence (s : string) :
  String.prefix json_fence s = true -> String.prefix fence s = true.
Proof.
  intros H. apply prefix_get. intros i Hi.
  rewrite (proj1 (prefix_get _ _) H i) by (cbn in *; lia).
  destruct i as [| [| [| i]]]; try reflexivity. cbn in Hi. lia.
Qed.

(** When no label begins inside the closing fence, the clean-up is the
    one the specification describes. *)
Lemma clean_response_eq (text : string) :
  label_in_closing_fence text = false ->
  clean_response text = Returns (unwrap_spec text).
Proof.
  unfold label_in_closing_fence, clean_response, unwrap_spec, block.
  rewrite !contains_find.
  destruct (find json_fence text) as [n |] eqn:Fj.
  - rewrite (index_split_1 json_fence text n) by (discriminate || exact Fj).
    rewrite index_split_0 by discriminate. cbn [bind].
    rewrite index_split_0 by discriminate. cbn [bind].
    set (after := Str.drop (n + String.length json_fence) text).
    destruct (find json_fence after) as [j |] eqn:J.
    + destruct (find fence after) as [m |] eqn:M.
      * intros Q. rewrite (fence_in_part after j m J M Q). reflexivity.
      * exfalso. apply find_some in J as (J1 & _ & _).
        apply json_fence_is_fence in J1.
        rewrite (proj1 (find_none _ _) M j) in J1. discriminate.
    + intros _. destruct (find fence after); reflexivity.
  - intros _. destruct (find fence text) as [n |] eqn:F; [| reflexivity].
    rewrite (index_split_1 fence text n) by (discriminate || exact F).
    rewrite index_split_0 by discriminate. cbn [bind].
    rewrite index_split_0 by discriminate. cbn [bind].
    set (after := Str.drop (n + String.length fence) text).
    destruct (find fence after) as [m |] eqn:M.
    + rewrite (find_take_first fence after m) by (discriminate || exact M).
      reflexivity.
    + rewrite M. reflexivity.
Qed.

(** C7: in the response [```json{}````json] the block labelled json holds
    [{}], up to the next fence.  The code cuts the response at the second
    label first, and that label begins at the second backtick of the
    closing run: the text handed to the JSON parser is [{}`].  A parser
    that refuses it with a decoding error, as [json.loads] does, makes the
    run fail with a parse error although the block holds valid JSON.
    With the same closing run and no label after it, the block is
    unwrapped. *)
Theorem C7_label_in_closing_fence :
  let text := "```json{}````json" in
  Str.strip text = text
  /\ block json_fence fence text = Some "{}"
  /\ clean_response text = Returns "{}`"
  /\ (forall (json_loads : string -> outcome value) (m : string),
        json_loads "{}`" = Raises (JSONDecodeError m) ->
        parse_statement json_loads (Returns text)
        = Raises (Exception ("Could not parse AI response: " ++ m))
        /\ process_statement json_loads (Returns text)
           = Raises (Exception ("Could not parse AI response: " ++ m)))
  /\ clean_response "```json{}````" = Returns "{}".
Proof.
  intros text.
  assert (S : Str.strip text = text) by (vm_compute; reflexivity).
  assert (C : clean_response text = Returns "{}`") by (vm_compute; reflexivity).
  split; [exact S |]. split; [vm_compute; reflexivity |].
  split; [exact C |]. split; [| vm_compute; reflexivity].
  intros json_loads m J.
  assert (P : parse_statement json_loads (Returns text)
              = Raises (Exception ("Could not parse AI response: " ++ m))).
  { unfold parse_statement. cbn [bind]. rewrite S, C. cbn [bind].
    rewrite J. reflexivity. }
  split; [exact P |].
  unfold process_statement. rewrite P. reflexivity.
Qed.

(** ** The store: [validate] writes only to objects it has created *)

Lemma post_ret {A} h0 (a : A) (Q : A -> Prop) : Q a -> post h0 (Store.ret a) Q.
Proof.
  intros Ha h Hh. split; [exact Hh |]. intros b Hb. injection Hb as <-. exact Ha.
Qed.

Lemma post_raise {A} h0 (e : exn) (Q : A -> Prop) : post h0 (Store.raise e) Q.
Proof. intros h Hh. split; [exact Hh |]. intros b Hb. discriminate. Qed.

Lemma post_bind {A B} h0 (m : Store.M A) (k : A -> Store.M B)
    (Q : A -> Prop) (R : B -> Prop) :
  post h0 m Q -> (forall a, Q a -> post h0 (k a) R) ->
  post h0 (Store.mbind m k) R.
Proof.
  intros Hm Hk h Hh. unfold Store.mbind.
  destruct (Hm h Hh) as [H1 H2].
  destruct (m h) as [[a | e] h1]; simpl in *.
  - apply (Hk a (H2 a eq_refl) h1 H1).
  - split; [exact H1 |]. intros b Hb. discriminate.
Qed.

Lemma post_weaken {A} h0 (m : Store.M A) (Q R : A -> Prop) :
  post h0 m Q -> (forall a, Q a -> R a) -> post h0 m R.
Proof.
  intros Hm HQR h Hh. destruct (Hm h Hh) as [H1 H2].
  split; [exact H1 |]. intros a Ha. apply HQR, H2, Ha.
Qed.

Lemma post_reads {A} h0 (m : Store.M A) : reads m -> post h0 m (fun _ => True).
Proof. intros Hr h Hh. rewrite Hr. split; [exact Hh | trivial]. Qed.

Lemma reads_bind {A B} (m : Store.M A) (k : A -> Store.M B) :
  reads m -> (forall a, reads (k a)) -> reads (Store.mbind m k).
Proof.
  intros Hm Hk h. unfold Store.mbind. specialize (Hm h).
  destruct (m h) as [[a | e] h1]; simpl in *; subst h1; [apply Hk | reflexivity].
Qed.

Lemma reads_ret {A} (a : A) : reads (Store.ret a).
Proof. intros h. reflexivity. Qed.

Lemma reads_raise {A} (e : exn) : reads (@Store.raise A e).
Proof. intros h. reflexivity. Qed.

Lemma reads_lift {A} (o : outcome A) : reads (Store.lift o).
Proof. intros h. reflexivity. Qed.

Lemma reads_view (v : Store.hval) : reads (Store.view v).
Proof. intros h. reflexivity. Qed.

Lemma reads_entries (l : Store.loc) : reads (Store.entries l).
Proof. intros h. unfold Store.entries. destruct (h !! l) as [[] |]; reflexivity. Qed.

Lemma reads_get (d : Store.loc) (k : string) : reads (Store.get d k).
Proof.
  apply reads_bind; [apply reads_entries | intros; apply reads_ret].
Qed.

Lemma reads_getitem (d : Store.loc) (k : string) : reads (Store.getitem d k).
Proof.
  apply reads_bind; [apply reads_entries |].
  intros kvs. destruct (Store.lookup_entry kvs k); [apply reads_ret | apply reads_raise].
Qed.

Lemma reads_contains (d : Store.loc) (k : string) : reads (Store.contains d k).
Proof.
  apply reads_bind; [apply reads_entries | intros; apply reads_ret].
Qed.

Lemma reads_test (v : Store.hval) : reads (Store.test v).
Proof.
  apply reads_bind; [apply reads_view | intros; apply reads_ret].
Qed.

Lemma reads_iterate (v : Store.hval) : reads (Store.iterate v).
Proof.
  destruct v; try apply reads_raise; [apply reads_ret |].
  intros h. simpl. destruct (h !! l) as [[] |]; reflexivity.
Qed.

Lemma reads_as_dict (v : Store.hval) : reads (Store.as_dict v).
Proof.
  destruct v; try apply reads_ret.
  intros h. simpl. destruct (h !! l) as [[] |]; reflexivity.
Qed.

Lemma post_alloc h0 (o : Store.obj) :
  post h0 (Store.alloc o) (fun l => h0 !! l = None).
Proof.
  intros h Hh. unfold Store.alloc. simpl.
  assert (F : h !! fresh (dom h) = None)
    by (apply not_elem_of_dom, is_fresh).
  assert (F0 : h0 !! fresh (dom h) = None).
  { destruct (h0 !! fresh (dom h)) as [x |] eqn:E; [| reflexivity].
    rewrite (lookup_weaken _ _ _ _ E Hh) in F. discriminate. }
  split.
  - apply insert_subseteq_r; assumption.
  - intros a Ha. injection Ha as <-. exact F0.
Qed.

Lemma post_write h0 (l : Store.loc) (o : Store.obj) :
  h0 !! l = None -> post h0 (Store.write l o) (fun _ => True).
Proof.
  intros F h Hh. unfold Store.write. simpl.
  split; [apply insert_subseteq_r; assumption | trivial].
Qed.

Lemma post_setitem h0 (l : Store.loc) (k : string) (v : Store.hval) :
  h0 !! l = None -> post h0 (Store.setitem l k v) (fun _ => True).
Proof.
  intros F. apply (post_bind _ _ _ (fun _ => True)).
  - apply post_reads, reads_entries.
  - intros kvs _. apply post_write, F.
Qed.

Lemma post_append h0 (l : Store.loc) (v : Store.hval) :
  h0 !! l = None -> post h0 (Store.append l v) (fun _ => True).
Proof.
  intros F h Hh. unfold Store.append.
  destruct (h !! l) as [[] |]; simpl;
    (split; [try apply insert_subseteq_r; assumption | trivial || discriminate]).
Qed.

Lemma post_copy h0 (d : Store.loc) :
  post h0 (Store.copy d) (fun l => h0 !! l = None).
Proof.
  apply (post_bind _ _ _ (fun _ => True)).
  - apply post_reads, reads_entries.
  - intros kvs _. apply post_alloc.
Qed.

Lemma post_for_each {A S} h0 (xs : list A) (body : S -> A -> Store.M S)
    (Q : S -> Prop) :
  (forall s x, Q s -> post h0 (body s x) Q) ->
  forall s, Q s -> post h0 (Store.for_each xs body s) Q.
Proof.
  intros Hb. induction xs as [| x xs IH]; intros s Hs; simpl.
  - apply post_ret, Hs.
  - apply (post_bind _ _ _ Q); [apply Hb, Hs | exact IH].
Qed.

Tactic Notation "post_read" constr(H) "as" ident(x) :=
  apply (post_bind _ _ _ (fun _ => True)); [apply post_reads, H | intros x _].

Lemma post_clean_txn h0 (cleaned_txns : Store.loc) (u : unit) (txn : Store.hval) :
  h0 !! cleaned_txns = None ->
  post h0 (Store.clean_txn cleaned_txns u txn) (fun _ => True).
Proof.
  intros F. unfold Store.clean_txn.
  post_read (reads_as_dict txn) as d.
  destruct d as [t |]; [| apply post_ret; trivial].
  post_read (reads_get t "description") as desc.
  post_read (reads_test desc) as keep.
  destruct keep; [| apply post_ret; trivial].
  apply (post_bind _ _ _ _ _ (post_copy h0 t)). intros c Fc.
  post_read (reads_contains t "amount") as has_amount.
  apply (post_bind _ _ _ (fun _ => True)).
  - destruct has_amount; [| apply post_ret; trivial].
    post_read (reads_getitem t "amount") as a.
    post_read (reads_view a) as av.
    post_read (reads_lift (_clean_amount av)) as amount.
    destruct amount; [apply post_setitem, Fc | apply post_ret; trivial].
  - intros _ _. apply post_append, F.
Qed.

Lemma post_validate h0 (data : Store.loc) :
  post h0 (Store.validate data) (fun res => h0 !! Store.data res = None).
Proof.
  unfold Store.validate.
  apply (post_bind _ _ _ _ _ (post_copy h0 data)). intros copied Fc.
  post_read (reads_get data "card_last_4") as card.
  post_read (reads_test card) as has_card.
  apply (post_bind _ _ _ (fun res => h0 !! Store.data res = None)).
  { destruct has_card; [| apply post_ret; exact Fc].
    post_read (reads_getitem data "card_last_4") as v.
    post_read (reads_view v) as t.
    destruct (String.length _ =? 4)%nat; [| apply post_ret; exact Fc].
    apply (post_bind _ _ _ (fun _ => True)); [apply post_setitem, Fc |].
    intros _ _. apply post_ret. exact Fc. }
  intros r1 F1.
  apply (post_bind _ _ _ (fun res => h0 !! Store.data res = None)).
  { apply post_for_each; [| exact F1]. intros res f Fr.
    post_read (reads_get data f) as v.
    post_read (reads_test v) as present.
    destruct present; [| apply post_ret; exact Fr].
    post_read (reads_getitem data f) as v'.
    post_read (reads_view v') as t.
    post_read (reads_lift (_clean_date t)) as cleaned_date.
    destruct cleaned_date as [[| c0 c] |]; try (apply post_ret; exact Fr).
    apply (post_bind _ _ _ (fun _ => True)); [apply post_setitem, Fr |].
    intros _ _. apply post_ret. exact Fr. }
  intros r2 F2.
  apply (post_bind _ _ _ (fun res => h0 !! Store.data res = None)).
  { apply post_for_each; [| exact F2]. intros res f Fr.
    post_read (reads_get data f) as v.
    post_read (reads_view v) as t.
    destruct (is_not_none t); [| apply post_ret; exact Fr].
    post_read (reads_getitem data f) as v'.
    post_read (reads_view v') as t'.
    post_read (reads_lift (_clean_amount t')) as cleaned.
    destruct cleaned; try (apply post_ret; exact Fr).
    apply (post_bind _ _ _ (fun _ => True)); [apply post_setitem, Fr |].
    intros _ _. apply post_ret. exact Fr. }
  intros r3 F3.
  post_read (reads_get data "transactions") as txns.
  post_read (reads_test txns) as has_txns.
  apply (post_bind _ _ _ (fun _ => True)).
  { destruct has_txns; [| apply post_ret; trivial].
    apply (post_bind _ _ _ _ _ (post_alloc h0 _)). intros cl Fl.
    post_read (reads_getitem data "transactions") as txns'.
    post_read (reads_iterate txns') as items.
    apply (post_bind _ _ _ (fun _ => True)).
    - apply post_for_each; [| trivial]. intros s x _. apply post_clean_txn, Fl.
    - intros _ _. apply post_setitem, F3. }
  intros _ _.
  post_read (reads_get data "card_issuer") as issuer.
  post_read (reads_test issuer) as has_issuer.
  post_read (reads_get data "total_balance") as balance.
  post_read (reads_test balance) as has_balance.
  apply post_ret.
  destruct (negb has_issuer), (negb has_balance); exact F3.
Qed.

(** C9: every object of the store in which [validate] is called is the
    same object when it ends, whether it returns or raises; the data of
    the result is a dict that did not exist before the call. *)
Theorem C9_input_not_mutated (data : Store.loc) (h : gmap Store.loc Store.obj) :
  (forall l o, h !! l = Some o -> snd (Store.validate data h) !! l = Some o)
  /\ (forall res, fst (Store.validate data h) = Returns res ->
      h !! Store.data res = None).
Proof.
  destruct (post_validate h data h) as [H1 H2]; [reflexivity |].
  split; [| exact H2].
  intros l o Hl. apply (lookup_weaken _ _ _ _ Hl H1).
Qed.

(** The sample statement in a store, its transactions and their entries
    as objects of their own. *)
Lemma store_validate_sample :
  let h := sample_store in
  let '(r, h') := Store.validate 0%nat h in
  exists res,
    r = Returns res
    /\ Store.reify 3 h' (Store.HRef (Store.data res))
       = VDict (data (validated sample_statement))
    /\ Store.warnings res = warnings (validated sample_statement)
    /\ Store.reify 3 h' (Store.HRef 0%nat) = VDict sample_statement.
Proof.
  vm_compute. eexists. repeat split; reflexivity.
Qed.

(** * Further properties of the code *)

(** ** [validate]: what it leaves alone, what it records, when it raises *)

Lemma updates_keys (d : dict) : List.map fst (updates d) = known_fields.
Proof. reflexivity. Qed.

(** X1: a field that is not one of the eleven [validate] knows (the card
    suffix, three dates, six amounts, the transactions) has in the result
    the value it has in the input, and is present in the one exactly when
    it is present in the other. *)
Theorem validate_other_fields (d : dict) (r : ValidationResult) (k : string) :
  validate d = Returns r ->
  ~ In k known_fields ->
  Dict.get (data r) k = Dict.get d k
  /\ Dict.contains (data r) k = Dict.contains d k.
Proof.
  intros H N. split.
  - rewrite (validate_get d r k H), updated_notin; [reflexivity |].
    rewrite updates_keys. exact N.
  - pose proof (validate_keys d r H) as K.
    pose proof (contains_keys (data r) k) as C1.
    pose proof (contains_keys d k) as C2.
    rewrite K in C1.
    destruct (Dict.contains (data r) k), (Dict.contains d k); try reflexivity.
    + symmetry. apply (proj2 C2). apply (proj1 C1). reflexivity.
    + apply (proj2 C1). apply (proj1 C2). reflexivity.
Qed.

Lemma validate_other_fields_witness :
  validate sample_statement = Returns (validated sample_statement)
  /\ Dict.get (data (validated sample_statement)) "card_issuer" = VStr "Chase".
Proof.
  split; [exact sample_statement_validates |].
  refine (proj1 (validate_other_fields sample_statement _ "card_issuer"
                   sample_statement_validates _)).
  unfold known_fields, date_fields, amount_fields. simpl.
  intuition discriminate.
Defined.

(** X2: the warnings of a result are some of the three messages, each at
    most once and in the order card, issuer, balance; the card warning is
    there exactly when the suffix counts as true and does not have four
    digits, the issuer warning exactly when the issuer counts as false,
    the balance warning exactly when the balance counts as false. *)
Theorem validate_warnings_order (d : dict) (r : ValidationResult) :
  validate d = Returns r ->
  sublist (warnings r) all_warnings
  /\ (In "Card last 4 digits format issue" (warnings r)
      <-> truthy (Dict.get d "card_last_4") = true
          /\ String.length
               (Str.filter Str.isdigit (Repr.str (Dict.get d "card_last_4")))
             <> 4%nat)
  /\ (In "Could not identify card issuer" (warnings r)
      <-> truthy (Dict.get d "card_issuer") = false)
  /\ (In "Could not find total balance" (warnings r)
      <-> truthy (Dict.get d "total_balance") = false).
Proof.
  intros H. pose proof (validate_warnings d r H) as [W1 W2].
  split; [| split; [| split; [exact W1 | exact W2]]].
  - apply validate_returns in H as [_ ->].
    unfold validated; cbn [warnings].
    unfold card_warning, critical_warnings, all_warnings.
    destruct (truthy (Dict.get d "card_last_4") && _);
      destruct (truthy (Dict.get d "card_issuer"));
      destruct (truthy (Dict.get d "total_balance")); simpl;
      repeat (first [apply sublist_nil | apply sublist_skip | apply sublist_cons]).
  - apply validate_returns in H as [_ ->].
    unfold validated; cbn [warnings].
    unfold card_warning, critical_warnings, card_digits.
    destruct (truthy (Dict.get d "card_last_4")); simpl.
    + destruct (String.length _ =? 4)%nat eqn:E; simpl.
      * apply Nat.eqb_eq in E. split.
        -- intros Hin. exfalso.
           destruct (truthy (Dict.get d "card_issuer"));
             destruct (truthy (Dict.get d "total_balance")); simpl in Hin;
             intuition discriminate.
        -- intros [_ Hn]. congruence.
      * apply Nat.eqb_neq in E. split; [intros _; split; [reflexivity | exact E] |].
        intros _. left. reflexivity.
    + split; [| intros [Hf _]; discriminate].
      intros Hin. exfalso.
      destruct (truthy (Dict.get d "card_issuer"));
        destruct (truthy (Dict.get d "total_balance")); simpl in Hin;
        intuition discriminate.
Qed.

Lemma validate_warnings_order_witness :
  validate statement_with_long_suffix
  = Returns (validated statement_with_long_suffix)
  /\ sublist (warnings (validated statement_with_long_suffix)) all_warnings.
Proof.
  assert (H : validate statement_with_long_suffix
              = Returns (validated statement_with_long_suffix))
    by (vm_compute; reflexivity).
  split; [exact H |].
  exact (proj1 (validate_warnings_order _ _ H)).
Defined.

(** X3: [validate] raises exactly when the transactions field counts as
    true and is a bool or a number, and what it raises then is the
    [TypeError] of the [for] loop; on every other input it returns. *)
Theorem validate_raises_iff (d : dict) :
  let v := Dict.get d "transactions" in
  let scalar := match v with
                | VBool _ | VInt _ | VFloat _ => true
                | _ => false
                end in
  ((exists e, validate d = Raises e) <-> truthy v && scalar = true)
  /\ (forall e, validate d = Raises e -> e = TypeError "object is not iterable")
  /\ ((exists r, validate d = Returns r) <-> truthy v && scalar = false).
Proof.
  intros v scalar. rewrite validate_eq.
  assert (E : transactions_iterable d = negb (truthy v && scalar)).
  { unfold transactions_iterable, scalar, v.
    destruct (Dict.get d "transactions") as [| | | | | [] | []]; simpl;
      rewrite ?andb_true_r, ?andb_false_r; reflexivity. }
  rewrite E. destruct (truthy v && scalar); simpl.
  - split; [| split].
    + split; [reflexivity | intros _; eexists; reflexivity].
    + intros e He. injection He as <-. reflexivity.
    + split; [intros [r Hr]; discriminate | discriminate].
  - split; [| split].
    + split; [intros [e He]; discriminate | discriminate].
    + intros e He. discriminate.
    + split; [reflexivity | intros _; eexists; reflexivity].
Qed.

Lemma filter_has_description_strs {A} (f : A -> string) (xs : list A) :
  List.filter has_description (List.map (fun x => VStr (f x)) xs) = [].
Proof. induction xs as [| x xs IH]; simpl; [reflexivity | exact IH]. Qed.

(** X4: a transactions field that is a non-empty string or a non-empty
    dict is walked character by character or key by key, so nothing is
    kept: the result holds an empty list in its place. *)
Theorem validate_transactions_not_a_list (d : dict) (r : ValidationResult) :
  validate d = Returns r ->
  truthy (Dict.get d "transactions") = true ->
  (exists s, Dict.get d "transactions" = VStr s)
  \/ (exists kvs, Dict.get d "transactions" = VDict kvs) ->
  Dict.get (data r) "transactions" = VList [].
Proof.
  intros H T S.
  rewrite (validate_get d r _ H), updated_transactions.
  unfold transactions_update. rewrite T.
  destruct S as [[s G] | [kvs G]]; rewrite G; simpl.
  - rewrite (filter_has_description_strs (fun c => String c "")). reflexivity.
  - rewrite (filter_has_description_strs fst). reflexivity.
Qed.

Lemma validate_transactions_not_a_list_witness :
  validate [("transactions", VDict [("t1", VDict [("description", VStr "Coffee")])])]
  = Returns (validated
               [("transactions", VDict [("t1", VDict [("description", VStr "Coffee")])])])
  /\ Dict.get
       (data (validated
                [("transactions",
                  VDict [("t1", VDict [("description", VStr "Coffee")])])]))
       "transactions" = VList [].
Proof.
  assert (H : validate
                [("transactions", VDict [("t1", VDict [("description", VStr "Coffee")])])]
              = Returns (validated
                           [("transactions",
                             VDict [("t1", VDict [("description", VStr "Coffee")])])]))
    by (vm_compute; reflexivity).
  split; [exact H |].
  refine (validate_transactions_not_a_list _ _ H eq_refl _).
  right. eexists. reflexivity.
Defined.

(** ** [_clean_amount]: the characters that do not count *)

Lemma sub_symbols_insert (a b : string) (c : ascii) :
  is_symbol c = true ->
  sub_symbols (a ++ String c b) = sub_symbols (a ++ b).
Proof.
  intros H. unfold sub_symbols. rewrite !filter_app.
  f_equal. cbn [Str.filter]. unfold is_symbol in H. rewrite H. reflexivity.
Qed.

(** X5: a dollar sign, a comma or a white-space character changes
    nothing wherever it stands in the text of an amount: with it and
    without it [_clean_amount] gives the same result. *)
Theorem clean_amount_ignores_symbols (a b : string) (c : ascii) :
  is_symbol c = true ->
  _clean_amount (VStr (a ++ String c b)) = _clean_amount (VStr (a ++ b)).
Proof.
  intros H. rewrite !clean_amount_str. unfold amount_text.
  rewrite (sub_symbols_insert a b c H). reflexivity.
Qed.

Lemma clean_amount_ignores_symbols_witness :
  _clean_amount (VStr "12,34") = _clean_amount (VStr "1234").
Proof.
  exact (clean_amount_ignores_symbols "12" "34" ","%char eq_refl).
Defined.

(** ** Dates: reading back what was written *)

Lemma isdigit_cases (a : ascii) :
  Str.isdigit a = true ->
  a = "0"%char \/ a = "1"%char \/ a = "2"%char \/ a = "3"%char \/ a = "4"%char
  \/ a = "5"%char \/ a = "6"%char \/ a = "7"%char \/ a = "8"%char \/ a = "9"%char.
Proof.
  destruct a as [[] [] [] [] [] [] [] []]; vm_compute; intros H;
    try discriminate H; tauto.
Qed.

Lemma isdigit_not_space (a : ascii) :
  Str.isdigit a = true -> Str.isspace a = false.
Proof.
  intros H. destruct (isdigit_cases a H) as [-> | [-> | [-> | [-> | [-> | [-> | [-> | [-> | [-> | ->]]]]]]]]];
    reflexivity.
Qed.

Lemma year_value (y : Z) :
  1000 <= y <= 9999 -> four_digit_value (Repr.of_int y) y = true.
Proof.
  apply (in_range_forallb (fun n => four_digit_value (Repr.of_int n) n) 1000 9999).
  vm_compute. reflexivity.
Qed.

Lemma pad_two_value (n : Z) :
  1 <= n <= 31 -> two_digit_value (Datetime.pad 2 n) n = true.
Proof.
  apply (in_range_forallb (fun n => two_digit_value (Datetime.pad 2 n) n) 1 31).
  vm_compute. reflexivity.
Qed.

Lemma year_no_space (y : Z) :
  1 <= y <= 9999 ->
  Str.all (fun c => negb (Str.isspace c)) (Repr.of_int y) = true.
Proof.
  apply (in_range_forallb
           (fun n => Str.all (fun c => negb (Str.isspace c)) (Repr.of_int n))
           1 9999).
  vm_compute. reflexivity.
Qed.

Lemma pad_two_no_space (n : Z) :
  1 <= n <= 31 ->
  Str.all (fun c => negb (Str.isspace c)) (Datetime.pad 2 n) = true.
Proof.
  apply (in_range_forallb
           (fun n => Str.all (fun c => negb (Str.isspace c)) (Datetime.pad 2 n))
           1 31).
  vm_compute. reflexivity.
Qed.

Lemma tok_year (fs : Datetime.fields) (a b c e : ascii) (rest : string) (y : Z) :
  four_digit_value (String a (String b (String c (String e "")))) y = true ->
  Datetime.match_tok Datetime.TYear fs
    (String a (String b (String c (String e rest))))
  = [({| Datetime.fY := y; Datetime.fm := Datetime.fm fs;
         Datetime.fd := Datetime.fd fs |}, rest)].
Proof.
  unfold four_digit_value. intros H.
  apply andb_true_iff in H as [H V]. apply Z.eqb_eq in V.
  cbn [Datetime.match_tok]. rewrite H. unfold Datetime.dv. rewrite V. reflexivity.
Qed.

Lemma tok_month (fs : Datetime.fields) (a b : ascii) (rest : string) (m : Z) :
  two_digit_value (String a (String b "")) m = true -> 1 <= m <= 12 ->
  exists tl,
    Datetime.match_tok Datetime.TMonth fs (String a (String b rest))
    = ({| Datetime.fY := Datetime.fY fs; Datetime.fm := m;
          Datetime.fd := Datetime.fd fs |}, rest) :: tl.
Proof.
  unfold two_digit_value. intros H R.
  apply andb_true_iff in H as [H V]. apply andb_true_iff in H as [Ha Hb].
  apply Z.eqb_eq in V. subst m.
  destruct (isdigit_cases a Ha) as [-> | [-> | [-> | [-> | [-> | [-> | [-> | [-> | [-> | ->]]]]]]]]];
    destruct (isdigit_cases b Hb) as [-> | [-> | [-> | [-> | [-> | [-> | [-> | [-> | [-> | ->]]]]]]]]];
    vm_compute in R; try (exfalso; intuition congruence);
    eexists; reflexivity.
Qed.

Lemma tok_day (fs : Datetime.fields) (a b : ascii) (rest : string) (n : Z) :
  two_digit_value (String a (String b "")) n = true -> 1 <= n <= 31 ->
  exists tl,
    Datetime.match_tok Datetime.TDay fs (String a (String b rest))
    = ({| Datetime.fY := Datetime.fY fs; Datetime.fm := Datetime.fm fs;
          Datetime.fd := n |}, rest) :: tl.
Proof.
  unfold two_digit_value. intros H R.
  apply andb_true_iff in H as [H V]. apply andb_true_iff in H as [Ha Hb].
  apply Z.eqb_eq in V. subst n.
  destruct (isdigit_cases a Ha) as [-> | [-> | [-> | [-> | [-> | [-> | [-> | [-> | [-> | ->]]]]]]]]];
    destruct (isdigit_cases b Hb) as [-> | [-> | [-> | [-> | [-> | [-> | [-> | [-> | [-> | ->]]]]]]]]];
    vm_compute in R; try (exfalso; intuition congruence);
    eexists; reflexivity.
Qed.

Lemma match_toks_head (t : Datetime.tok) (ts : list Datetime.tok)
    (fs fs' : Datetime.fields) (s s' : string)
    (tl : list (Datetime.fields * string)) (r : Datetime.fields * string)
    (tl' : list (Datetime.fields * string)) :
  Datetime.match_tok t fs s = (fs', s') :: tl ->
  Datetime.match_toks ts fs' s' = r :: tl' ->
  exists tl'', Datetime.match_toks (t :: ts) fs s = r :: tl''.
Proof.
  intros H1 H2. cbn [Datetime.match_toks]. rewrite H1. cbn [flat_map fst snd].
  rewrite H2. eexists. reflexivity.
Qed.

(** From the year 1000 on, the text of a date of the calendar, read with
    the first format, is that date. *)
Lemma strptime_strftime_ymd (dt : Datetime.date) :
  Datetime.valid_date dt = true -> 1000 <= Datetime.year dt ->
  Datetime.strptime (Datetime.strftime_ymd dt) "%Y-%m-%d" = Returns dt.
Proof.
  intros V L. destruct (valid_date_bounds dt V) as (By & Rm & Rd).
  assert (Y : four_digit_value (Repr.of_int (Datetime.year dt)) (Datetime.year dt) = true)
    by (apply year_value; lia).
  assert (M : two_digit_value (Datetime.pad 2 (Datetime.month dt)) (Datetime.month dt) = true)
    by (apply pad_two_value; lia).
  assert (Dd : two_digit_value (Datetime.pad 2 (Datetime.day dt)) (Datetime.day dt) = true)
    by (apply pad_two_value; lia).
  unfold Datetime.strptime.
  change (Datetime.parse_format "%Y-%m-%d")
    with (Some [Datetime.TYear; Datetime.TLit "-"; Datetime.TMonth;
                Datetime.TLit "-"; Datetime.TDay]).
  unfold Datetime.strftime_ymd.
  destruct (Repr.of_int (Datetime.year dt))
    as [| y1 [| y2 [| y3 [| y4 [| ? ?]]]]]; try discriminate.
  destruct (Datetime.pad 2 (Datetime.month dt)) as [| m1 [| m2 [| ? ?]]];
    try discriminate.
  destruct (Datetime.pad 2 (Datetime.day dt)) as [| d1 [| d2 [| ? ?]]];
    try discriminate.
  cbv [String.append].
  destruct (tok_day {| Datetime.fY := Datetime.year dt;
                       Datetime.fm := Datetime.month dt;
                       Datetime.fd := Datetime.fd Datetime.no_fields |}
              d1 d2 "" _ Dd Rd) as [tl5 T5].
  destruct (tok_month {| Datetime.fY := Datetime.year dt;
                         Datetime.fm := Datetime.fm Datetime.no_fields;
                         Datetime.fd := Datetime.fd Datetime.no_fields |}
              m1 m2 (String "-" (String d1 (String d2 ""))) _ M Rm) as [tl3 T3].
  pose proof (tok_year Datetime.no_fields y1 y2 y3 y4
                (String "-" (String m1 (String m2
                   (String "-" (String d1 (String d2 ""))))))
                _ Y) as T1.
  destruct (match_toks_head _ [] _ _ _ _ _ _ [] T5 eq_refl) as [l5 L5].
  destruct (match_toks_head (Datetime.TLit "-") _
              {| Datetime.fY := Datetime.year dt;
                 Datetime.fm := Datetime.month dt;
                 Datetime.fd := Datetime.fd Datetime.no_fields |}
              _ (String "-" (String d1 (String d2 ""))) _ [] _ _
              eq_refl L5) as [l4 L4].
  destruct (match_toks_head _ _ _ _ _ _ _ _ _ T3 L4) as [l3 L3].
  destruct (match_toks_head (Datetime.TLit "-") _
              {| Datetime.fY := Datetime.year dt;
                 Datetime.fm := Datetime.fm Datetime.no_fields;
                 Datetime.fd := Datetime.fd Datetime.no_fields |}
              _ (String "-" (String m1 (String m2
                   (String "-" (String d1 (String d2 "")))))) _ [] _ _
              eq_refl L3) as [l2 L2].
  destruct (match_toks_head _ _ _ _ _ _ _ _ _ T1 L2) as [l1 L1].
  rewrite L1. cbn [Datetime.fY Datetime.fm Datetime.fd].
  destruct dt as [y m d]. cbn [Datetime.year Datetime.month Datetime.day] in *.
  rewrite V. reflexivity.
Qed.

(** Below the year 1000 no format reads the text: the year has fewer
    than four digits.  The digits of the day play no part. *)
Lemma short_year_refused (d1 d2 : ascii) (y m : Z) :
  1 <= y <= 999 -> 1 <= m <= 12 ->
  forallb
    (fun fmt =>
       match Datetime.strptime
               (Repr.of_int y ++ "-" ++ Datetime.pad 2 m ++ "-"
                ++ String d1 (String d2 "")) fmt with
       | Raises _ => true
       | Returns _ => false
       end) formats = true.
Proof.
  intros Hy Hm.
  apply (in_range_forallb
           (fun m' =>
              forallb
                (fun fmt =>
                   match Datetime.strptime
                           (Repr.of_int y ++ "-" ++ Datetime.pad 2 m' ++ "-"
                            ++ String d1 (String d2 "")) fmt with
                   | Raises _ => true
                   | Returns _ => false
                   end) formats) 1 12 m); [| exact Hm].
  apply (in_range_forallb
           (fun y' =>
              forallb
                (fun k =>
                   forallb
                     (fun fmt =>
                        match Datetime.strptime
                                (Repr.of_int y' ++ "-"
                                 ++ Datetime.pad 2 (1 + Z.of_nat k) ++ "-"
                                 ++ String d1 (String d2 "")) fmt with
                        | Raises _ => true
                        | Returns _ => false
                        end) formats)
                (seq 0 (Z.to_nat (12 - 1 + 1)))) 1 999 y); [| exact Hy].
  vm_compute. reflexivity.
Qed.

Lemma strftime_ymd_refused (dt : Datetime.date) (fmt : string) :
  Datetime.valid_date dt = true -> Datetime.year dt < 1000 ->
  In fmt formats ->
  exists e, Datetime.strptime (Datetime.strftime_ymd dt) fmt = Raises e.
Proof.
  intros V L Hin. destruct (valid_date_bounds dt V) as (By & Bm & Bd).
  assert (Dd : two_digits (Datetime.pad 2 (Datetime.day dt)) = true)
    by (apply pad_month_day; lia).
  unfold Datetime.strftime_ymd.
  destruct (Datetime.pad 2 (Datetime.day dt)) as [| d1 [| d2 [| ? ?]]];
    try discriminate.
  pose proof (short_year_refused d1 d2 (Datetime.year dt) (Datetime.month dt)
                ltac:(lia) Bm) as R.
  rewrite forallb_forall in R. specialize (R fmt Hin).
  destruct (Datetime.strptime _ fmt) as [dt' | e]; [discriminate |].
  exists e. reflexivity.
Qed.

Lemma strftime_ymd_strip (dt : Datetime.date) :
  Datetime.valid_date dt = true ->
  Str.strip (Datetime.strftime_ymd dt) = Datetime.strftime_ymd dt.
Proof.
  intros V. destruct (valid_date_bounds dt V) as (By & Bm & Bd).
  assert (A : Str.all (fun c => negb (Str.isspace c)) (Datetime.strftime_ymd dt)
              = true).
  { unfold Datetime.strftime_ymd.
    rewrite all_app, (all_app _ "-"), all_app, (all_app _ "-").
    rewrite (year_no_space _ By), (pad_two_no_space (Datetime.month dt)),
      (pad_two_no_space (Datetime.day dt)) by lia.
    reflexivity. }
  unfold Str.strip. rewrite (lstrip_none _ _ A), (rstrip_none _ _ A). reflexivity.
Qed.

Lemma try_formats_some (s : string) (fmts : list string) (c : string) :
  try_formats s fmts = Some c ->
  exists dt, Datetime.valid_date dt = true /\ c = Datetime.strftime_ymd dt.
Proof.
  induction fmts as [| f0 fmts IH]; simpl; [discriminate |].
  destruct (Datetime.strptime s f0) as [dt | e] eqn:P; [| exact IH].
  intros H. injection H as <-. exists dt.
  split; [apply (strptime_valid _ _ _ P) | reflexivity].
Qed.

(** What [strftime] has written is returned as it is: from the year 1000
    on the first format reads it and it is written again; below, no
    format reads it and it passes through. *)
Lemma clean_date_strftime_ymd (dt : Datetime.date) :
  Datetime.valid_date dt = true ->
  _clean_date (VStr (Datetime.strftime_ymd dt))
  = Returns (Some (Datetime.strftime_ymd dt)).
Proof.
  intros V.
  rewrite clean_date_str by apply strftime_ymd_nonempty.
  rewrite (strftime_ymd_strip dt V).
  destruct (Z_lt_ge_dec (Datetime.year dt) 1000) as [L | G].
  - rewrite try_formats_none; [reflexivity |].
    intros fmt Hin. apply (strftime_ymd_refused dt fmt V L Hin).
  - unfold formats. cbn [try_formats].
    rewrite (strptime_strftime_ymd dt V) by lia. reflexivity.
Qed.

(** X6: a date of the calendar with a year from 1000 on, written by
    [strftime], is read back by the first format as the same date; with a
    year below 1000 the text has the year without leading zeros and none
    of the seven formats reads it; in both cases [_clean_date] returns the
    text as it is. *)
Theorem date_round_trip (dt : Datetime.date) :
  Datetime.valid_date dt = true ->
  (1000 <= Datetime.year dt ->
   Datetime.strptime (Datetime.strftime_ymd dt) "%Y-%m-%d" = Returns dt)
  /\ (Datetime.year dt < 1000 ->
      Forall (fun fmt =>
                exists e,
                  Datetime.strptime (Datetime.strftime_ymd dt) fmt = Raises e)
             formats)
  /\ _clean_date (VStr (Datetime.strftime_ymd dt))
     = Returns (Some (Datetime.strftime_ymd dt)).
Proof.
  intros V. split; [| split].
  - intros L. apply strptime_strftime_ymd; assumption.
  - intros L. apply List.Forall_forall. intros fmt Hin.
    apply (strftime_ymd_refused dt fmt V L Hin).
  - apply clean_date_strftime_ymd, V.
Qed.

Lemma date_round_trip_witness :
  Datetime.strptime (Datetime.strftime_ymd (Datetime.mkdate 2024 2 29)) "%Y-%m-%d"
  = Returns (Datetime.mkdate 2024 2 29)
  /\ _clean_date (VStr (Datetime.strftime_ymd (Datetime.mkdate 999 1 1)))
     = Returns (Some (Datetime.strftime_ymd (Datetime.mkdate 999 1 1))).
Proof.
  split.
  - refine (proj1 (date_round_trip (Datetime.mkdate 2024 2 29) eq_refl) _).
    vm_compute. discriminate.
  - exact (proj2 (proj2 (date_round_trip (Datetime.mkdate 999 1 1) eq_refl))).
Defined.

Lemma clean_date_fixed (v : value) (c : string) :
  _clean_date v = Returns (Some c) ->
  c <> EmptyString ->
  _clean_date (VStr c) = Returns (Some c).
Proof.
  unfold _clean_date at 1. intros H N.
  destruct (negb (truthy v)); [discriminate |].
  destruct (try_formats (Str.strip (Repr.str v)) formats) as [iso |] eqn:T.
  - injection H as <-.
    destruct (try_formats_some _ _ _ T) as (dt & V & ->).
    apply clean_date_strftime_ymd, V.
  - injection H as <-. rewrite (clean_date_str _ N), T. reflexivity.
Qed.

(** X7: [_clean_date] is idempotent: a text it has returned is returned
    unchanged when it is cleaned again. *)
Theorem clean_date_idempotent (v : value) (c : string) :
  _clean_date v = Returns (Some c) ->
  c <> EmptyString ->
  _clean_date (VStr c) = Returns (Some c).
Proof. apply clean_date_fixed. Qed.

Lemma clean_date_idempotent_witness :
  _clean_date (VStr "March 5, 2024") = Returns (Some "2024-03-05")
  /\ _clean_date (VStr "2024-03-05") = Returns (Some "2024-03-05").
Proof.
  assert (H : _clean_date (VStr "March 5, 2024") = Returns (Some "2024-03-05"))
    by (vm_compute; reflexivity).
  split; [exact H |].
  refine (clean_date_idempotent _ _ H _). discriminate.
Defined.

(** ** [validate] on its own output *)

Lemma filter_filter_same (p : ascii -> bool) (s : string) :
  Str.filter p (Str.filter p s) = Str.filter p s.
Proof. apply all_filter_id, all_filter_self. Qed.

Lemma normalize_amount_idempotent (v : value) :
  normalize_amount (normalize_amount v) = normalize_amount v.
Proof.
  unfold normalize_amount at 2.
  destruct (_clean_amount v) as [[f |] | e] eqn:E; try reflexivity;
    unfold normalize_amount; rewrite E; reflexivity.
Qed.

Lemma contains_setitem (t : dict) (k : string) (v : value) :
  Dict.contains (Dict.setitem t k v) k = true.
Proof.
  induction t as [| [k0 v0] t IH]; simpl.
  - rewrite String.eqb_refl. reflexivity.
  - destruct (String.eqb k0 k) eqn:E; simpl; rewrite E; [reflexivity | exact IH].
Qed.

Lemma normalize_txn_fixed (x : value) :
  has_description x = true ->
  has_description (normalize_txn x) = true
  /\ normalize_txn (normalize_txn x) = normalize_txn x.
Proof.
  destruct x as [| | | | | | t]; try discriminate. simpl has_description.
  intros Hd.
  destruct (Dict.contains t "amount") eqn:C.
  - set (na := normalize_amount (Dict.get t "amount")).
    assert (E : normalize_txn (VDict t) = VDict (Dict.setitem t "amount" na))
      by (unfold normalize_txn; rewrite C; reflexivity).
    rewrite E. split.
    + simpl. rewrite get_setitem. simpl. exact Hd.
    + unfold normalize_txn. rewrite contains_setitem, get_setitem.
      rewrite String.eqb_refl. unfold na at 2.
      rewrite normalize_amount_idempotent. fold na.
      f_equal.
      assert (G : Dict.get (Dict.setitem t "amount" na) "amount" = na)
        by (rewrite get_setitem, String.eqb_refl; reflexivity).
      rewrite <- G at 2. apply setitem_same, contains_setitem.
  - assert (E : normalize_txn (VDict t) = VDict t)
      by (unfold normalize_txn; rewrite C; reflexivity).
    rewrite E. split; [exact Hd | exact E].
Qed.

Lemma normalized_list_fixed (items : list value) :
  let l := List.map normalize_txn (List.filter has_description items) in
  List.map normalize_txn (List.filter has_description l) = l.
Proof.
  induction items as [| x items IH]; simpl; [reflexivity |].
  destruct (has_description x) eqn:Hx; [| exact IH].
  destruct (normalize_txn_fixed x Hx) as [H1 H2].
  simpl. rewrite H1. simpl. rewrite H2. f_equal. exact IH.
Qed.

Lemma fold_updates_fixed (us : list (string * option value)) (d : dict) :
  (forall k o, In (k, o) us ->
     o = None \/ (o = Some (Dict.get d k) /\ Dict.contains d k = true)) ->
  fold_left apply_update us d = d.
Proof.
  induction us as [| [k o] us IH]; intros H; simpl; [reflexivity |].
  assert (E : apply_update d (k, o) = d).
  { destruct (H k o (or_introl eq_refl)) as [-> | [-> C]]; [reflexivity |].
    unfold apply_update. simpl. apply setitem_same, C. }
  rewrite E. apply IH. intros k' o' Hin. apply H. right. exact Hin.
Qed.

Section Again.

Variables (d : dict) (r : ValidationResult).
Hypothesis Hv : validate d = Returns r.

Lemma card_fixed :
  card_update (data r) = None
  \/ (card_update (data r) = Some (Dict.get (data r) "card_last_4")
      /\ Dict.contains (data r) "card_last_4" = true).
Proof.
  pose proof (validate_get d r "card_last_4" Hv) as G.
  rewrite updated_card in G.
  destruct (card_update d) as [v |] eqn:U.
  - right. unfold card_update in U.
    destruct (truthy (Dict.get d "card_last_4")); [| discriminate].
    destruct (String.length (card_digits d) =? 4)%nat eqn:L; [| discriminate].
    injection U as <-.
    assert (E : card_update (data r) = Some (VStr (card_digits d))).
    { unfold card_update, card_digits at 1 2. rewrite G. simpl Repr.str.
      unfold card_digits. rewrite filter_filter_same. fold (card_digits d).
      rewrite L.
      destruct (card_digits d); [discriminate L | reflexivity]. }
    rewrite E, G. split; [reflexivity |].
    apply get_contains. rewrite G. discriminate.
  - assert (E : card_update (data r) = card_update d)
      by (unfold card_update, card_digits; rewrite G; reflexivity).
    left. rewrite E. exact U.
Qed.

Lemma date_fixed (f : string) :
  In f date_fields ->
  date_update (data r) f = None
  \/ (date_update (data r) f = Some (Dict.get (data r) f)
      /\ Dict.contains (data r) f = true).
Proof.
  intros Hf. pose proof (validate_get d r f Hv) as G.
  rewrite (updated_date d f Hf) in G.
  destruct (date_update d f) as [v |] eqn:U.
  - right. unfold date_update in U.
    destruct (truthy (Dict.get d f)); [| discriminate].
    destruct (_clean_date (Dict.get d f)) as [[[| a c] |] | e] eqn:C;
      try discriminate.
    injection U as <-.
    assert (E : date_update (data r) f = Some (VStr (String a c))).
    { unfold date_update. rewrite G. simpl truthy. cbv iota.
      rewrite (clean_date_fixed _ _ C) by discriminate. reflexivity. }
    rewrite E, G. split; [reflexivity |].
    apply get_contains. rewrite G. discriminate.
  - assert (E : date_update (data r) f = date_update d f)
      by (unfold date_update; rewrite G; reflexivity).
    left. rewrite E. exact U.
Qed.

Lemma amount_fixed (f : string) :
  In f amount_fields ->
  amount_update (data r) f = None
  \/ (amount_update (data r) f = Some (Dict.get (data r) f)
      /\ Dict.contains (data r) f = true).
Proof.
  intros Hf. pose proof (validate_get d r f Hv) as G.
  rewrite (updated_amount d f Hf) in G.
  destruct (amount_update d f) as [v |] eqn:U.
  - right. unfold amount_update in U.
    destruct (_clean_amount (Dict.get d f)) as [[x |] | e]; try discriminate.
    injection U as <-.
    assert (E : amount_update (data r) f = Some (VFloat x))
      by (unfold amount_update; rewrite G; reflexivity).
    rewrite E, G. split; [reflexivity |].
    apply get_contains. rewrite G. discriminate.
  - assert (E : amount_update (data r) f = amount_update d f)
      by (unfold amount_update; rewrite G; reflexivity).
    left. rewrite E. exact U.
Qed.

Lemma transactions_fixed :
  transactions_update (data r) = None
  \/ (transactions_update (data r) = Some (Dict.get (data r) "transactions")
      /\ Dict.contains (data r) "transactions" = true).
Proof.
  pose proof (validate_get d r "transactions" Hv) as G.
  rewrite updated_transactions in G.
  destruct (transactions_update d) as [v |] eqn:U.
  - unfold transactions_update in U.
    destruct (truthy (Dict.get d "transactions")); [| discriminate].
    destruct (iterate (Dict.get d "transactions")) as [items | e];
      [| discriminate].
    injection U as <-.
    set (l := List.map normalize_txn (List.filter has_description items)) in *.
    destruct l as [| x l'] eqn:El.
    + left. unfold transactions_update. rewrite G. reflexivity.
    + right. rewrite <- El in *.
      assert (E : transactions_update (data r) = Some (VList l)).
      { unfold transactions_update. rewrite G.
        replace (truthy (VList l)) with true by (rewrite El; reflexivity).
        cbn [iterate]. unfold l. rewrite normalized_list_fixed. reflexivity. }
      rewrite E, G. split; [reflexivity |].
      apply get_contains. rewrite G. discriminate.
  - assert (E : transactions_update (data r) = transactions_update d)
      by (unfold transactions_update; rewrite G; reflexivity).
    left. rewrite E. exact U.
Qed.

Lemma output_iterable : transactions_iterable (data r) = true.
Proof.
  pose proof (validate_get d r "transactions" Hv) as G.
  rewrite updated_transactions in G.
  apply validate_returns in Hv as [I _].
  unfold transactions_iterable in *. rewrite G.
  unfold transactions_update.
  destruct (truthy (Dict.get d "transactions")); [| exact I].
  destruct (iterate (Dict.get d "transactions")); [reflexivity | exact I].
Qed.

Lemma updates_fixed (k : string) (o : option value) :
  In (k, o) (updates (data r)) ->
  o = None \/ (o = Some (Dict.get (data r) k) /\ Dict.contains (data r) k = true).
Proof.
  unfold updates. intros [H | H].
  - injection H as <- <-. apply card_fixed.
  - apply in_app_or in H as [H | H].
    + apply in_map_iff in H as (f & E & Hf). injection E as <- <-.
      apply date_fixed, Hf.
    + apply in_app_or in H as [H | H].
      * apply in_map_iff in H as (f & E & Hf). injection E as <- <-.
        apply amount_fixed, Hf.
      * destruct H as [H | []]. injection H as <- <-. apply transactions_fixed.
Qed.

End Again.

(** X8: the data [validate] returns is a fixed point: validating it again
    returns, and gives the same data, field for field and in the same
    order.  (The warnings may differ: a balance normalised to [0.0] counts
    as false the second time.) *)
Theorem validate_data_idempotent (d : dict) (r : ValidationResult) :
  validate d = Returns r ->
  exists r', validate (data r) = Returns r' /\ data r' = data r.
Proof.
  intros H. exists (validated (data r)). split.
  - rewrite validate_eq, (output_iterable d r H). reflexivity.
  - unfold validated; cbn [data].
    apply fold_updates_fixed, (updates_fixed d r H).
Qed.

Lemma validate_data_idempotent_witness :
  validate sample_statement = Returns (validated sample_statement)
  /\ exists r', validate (data (validated sample_statement)) = Returns r'
                /\ data r' = data (validated sample_statement).
Proof.
  split; [exact sample_statement_validates |].
  exact (validate_data_idempotent _ _ sample_statement_validates).
Defined.

(** ** The response of the model: what reaches the parser, what fails *)

Lemma find_none_take (sub s : string) (k : nat) :
  sub <> EmptyString -> find sub s = None -> find sub (Str.take k s) = None.
Proof.
  intros N F. apply find_none. intros i. apply prefix_false_get.
  destruct (proj1 (prefix_false_get _ _) (proj1 (find_none _ _) F i))
    as (j & Hj & Hne).
  exists j. split; [exact Hj |].
  rewrite get_drop, get_take. rewrite get_drop in Hne.
  destruct (i + j <? k)%nat; [exact Hne |].
  destruct (get_some sub j Hj) as [c ->]. discriminate.
Qed.

Lemma find_none_drop (sub s : string) (k : nat) :
  find sub s = None -> find sub (Str.drop k s) = None.
Proof.
  intros F. apply find_none. intros i. rewrite drop_drop.
  apply (proj1 (find_none _ _) F).
Qed.

Lemma lstrip_is_drop (p : ascii -> bool) (s : string) :
  exists k, Str.lstrip_by p s = Str.drop k s.
Proof.
  induction s as [| c s [k IH]]; [exists O; reflexivity |].
  simpl. destruct (p c); [exists (S k); exact IH | exists O; reflexivity].
Qed.

Lemma rstrip_is_take (p : ascii -> bool) (s : string) :
  exists k, Str.rstrip_by p s = Str.take k s.
Proof.
  induction s as [| c s [k IH]]; [exists O; reflexivity |].
  simpl. rewrite IH. destruct (Str.take k s) eqn:E.
  - destruct (p c); [exists O; reflexivity | exists 1%nat].
    destruct s; reflexivity.
  - exists (S k). simpl. rewrite E. reflexivity.
Qed.

Lemma find_none_strip (sub s : string) :
  sub <> EmptyString -> find sub s = None -> find sub (Str.strip s) = None.
Proof.
  intros N F. unfold Str.strip.
  destruct (lstrip_is_drop Str.isspace s) as [k ->].
  destruct (rstrip_is_take Str.isspace (Str.drop k s)) as [j ->].
  apply find_none_take; [exact N |]. apply find_none_drop, F.
Qed.

Lemma split_head_no_sep (sep s : string) :
  sep <> EmptyString ->
  exists body, index (str_split sep s) 0 = Returns body /\ find sep body = None.
Proof.
  intros N. rewrite (index_split_0 sep s N).
  destruct (find sep s) as [m |] eqn:F; eexists; (split; [reflexivity |]).
  - apply (find_take_first sep s m N F).
  - exact F.
Qed.

Lemma clean_response_returns (text : string) :
  exists cleaned,
    clean_response text = Returns cleaned /\ find fence cleaned = None.
Proof.
  unfold clean_response. rewrite !contains_find.
  destruct (find json_fence text) as [n |] eqn:Fj.
  - rewrite (index_split_1 json_fence text n) by (discriminate || exact Fj).
    rewrite index_split_0 by discriminate. cbn [bind].
    match goal with
    | |- context [str_split fence ?part] =>
        destruct (split_head_no_sep fence part) as (body & -> & Hb);
          [discriminate |]
    end.
    cbn [bind]. eexists. split; [reflexivity |].
    apply find_none_strip; [discriminate | exact Hb].
  - destruct (find fence text) as [n |] eqn:F.
    + rewrite (index_split_1 fence text n) by (discriminate || exact F).
      rewrite index_split_0 by discriminate. cbn [bind].
      match goal with
      | |- context [str_split fence ?part] =>
          destruct (split_head_no_sep fence part) as (body & -> & Hb);
            [discriminate |]
      end.
      cbn [bind]. eexists. split; [reflexivity |].
      apply find_none_strip; [discriminate | exact Hb].
    + eexists. split; [reflexivity | exact F].
Qed.

(** X9: the clean-up of a response never fails (no index is out of
    range), and the text it hands to the JSON parser holds no run of
    three backticks. *)
Theorem clean_response_no_fence (text : string) :
  exists cleaned,
    clean_response text = Returns cleaned
    /\ Str.contains "```" cleaned = false.
Proof.
  destruct (clean_response_returns text) as (c & E & F).
  exists c. split; [exact E |].
  rewrite contains_find. change "```" with fence. rewrite F. reflexivity.
Qed.

Lemma parse_statement_raises (json_loads : string -> outcome value)
    (response : outcome string) (e : exn) :
  parse_statement json_loads response = Raises e ->
  exists m, e = Exception ("Could not parse AI response: " ++ m)
            \/ e = Exception ("AI parsing error: " ++ m).
Proof.
  unfold parse_statement. destruct response as [text | e0]; cbn [bind].
  - destruct (clean_response_returns (Str.strip text)) as (c & -> & _).
    cbn [bind]. destruct (json_loads c) as [v | []]; intros H;
      try discriminate; injection H as <-; eexists; auto.
  - destruct e0; intros H; injection H as <-; eexists; auto.
Qed.

Lemma parse_statement_returns (json_loads : string -> outcome value)
    (response : outcome string) (parsed : value) :
  parse_statement json_loads response = Returns parsed ->
  exists text cleaned,
    response = Returns text
    /\ clean_response (Str.strip text) = Returns cleaned
    /\ json_loads cleaned = Returns parsed.
Proof.
  unfold parse_statement. destruct response as [text | e0]; cbn [bind].
  - destruct (clean_response_returns (Str.strip text)) as (c & E & _).
    rewrite E. cbn [bind].
    destruct (json_loads c) as [v | []] eqn:J; intros H; try discriminate.
    injection H as <-. exists text, c. auto.
  - destruct e0; discriminate.
Qed.

(** X10: [parse_statement] returns what the JSON parser returns, and
    when it fails it raises an [Exception] whose message starts with
    [Could not parse AI response: ] (the parser, or the call, raised a
    JSON decoding error) or with [AI parsing error: ] (anything else);
    a failure of the call to the model that is not a JSON decoding error
    is reported in the second way. *)
Theorem parse_statement_failures (json_loads : string -> outcome value)
    (response : outcome string) :
  (forall e, parse_statement json_loads response = Raises e ->
     exists m, e = Exception ("Could not parse AI response: " ++ m)
               \/ e = Exception ("AI parsing error: " ++ m))
  /\ (forall parsed, parse_statement json_loads response = Returns parsed ->
      exists text cleaned,
        response = Returns text
        /\ clean_response (Str.strip text) = Returns cleaned
        /\ json_loads cleaned = Returns parsed)
  /\ (forall e, response = Raises e ->
      parse_statement json_loads response =
      Raises (Exception match e with
                        | JSONDecodeError m => "Could not parse AI response: " ++ m
                        | _ => "AI parsing error: " ++ exn_str e
                        end)).
Proof.
  split; [apply parse_statement_raises |].
  split; [apply parse_statement_returns |].
  intros e ->. unfold parse_statement. cbn [bind]. destruct e; reflexivity.
Qed.

(** ** [PDFExtractor.extract_from_pdf] *)

Import PDFExtractor.

Lemma add_page_returns (acc : list string * list table_entry) (n : nat) (p : page) :
  readable p ->
  add_page acc n p
  = Returns ((fst acc ++ pieces_of (n, p))%list, (snd acc ++ entries_of (n, p))%list).
Proof.
  intros [[t Ht] [ts Hts]]. unfold add_page, pieces_of, entries_of. simpl fst; simpl snd.
  rewrite Ht, Hts. cbn [bind].
  destruct t as [[| c t] |]; rewrite ?app_nil_r; reflexivity.
Qed.

Lemma add_page_raises (acc : list string * list table_entry) (n : nat) (p : page) :
  ~ readable p -> exists e, add_page acc n p = Raises e.
Proof.
  intros N. unfold add_page.
  destruct (extract_text p) as [t | e] eqn:Ht; [| eexists; reflexivity].
  destruct (extract_tables p) as [ts | e] eqn:Hts; [| eexists; reflexivity].
  exfalso. apply N. split; eexists; eassumption.
Qed.

Lemma pages_loop_returns (pages : list page) (n : nat)
    (acc : list string * list table_entry) :
  Forall readable pages ->
  pages_loop pages n acc
  = Returns ((fst acc ++ flat_map pieces_of (numbered pages n))%list,
             (snd acc ++ flat_map entries_of (numbered pages n))%list).
Proof.
  intros F. revert n acc. induction F as [| p pages Hp F IH]; intros n acc.
  - simpl. rewrite !app_nil_r. destruct acc; reflexivity.
  - cbn [pages_loop numbered flat_map]. rewrite (add_page_returns acc n p Hp).
    cbn [bind]. rewrite IH. cbn [fst snd]. rewrite <- !app_assoc. reflexivity.
Qed.

Lemma pages_loop_readable (pages : list page) (n : nat)
    (acc acc' : list string * list table_entry) :
  pages_loop pages n acc = Returns acc' -> Forall readable pages.
Proof.
  revert n acc. induction pages as [| p pages IH]; intros n acc H; [constructor |].
  cbn [pages_loop] in H.
  assert (R : readable p).
  { destruct (extract_text p) as [t | e] eqn:Ht.
    - destruct (extract_tables p) as [ts | e] eqn:Hts.
      + split; eexists; eassumption.
      + unfold add_page in H. rewrite Ht, Hts in H. discriminate.
    - unfold add_page in H. rewrite Ht in H. discriminate. }
  constructor; [exact R |].
  rewrite (add_page_returns acc n p R) in H. cbn [bind] in H.
  apply (IH _ _ H).
Qed.

Lemma extract_eq (pages : list page) :
  Forall readable pages ->
  extract_from_pdf (Returns pages)
  = Returns {| text := Repr.join "

" (flat_map pieces_of (numbered pages 1));
               tables := flat_map entries_of (numbered pages 1);
               page_count := List.length pages |}.
Proof.
  intros F. unfold extract_from_pdf. cbn [bind].
  rewrite (pages_loop_returns pages 1 ([], []) F). reflexivity.
Qed.

Lemma extract_returns_readable (pages : list page) (x : extracted) :
  extract_from_pdf (Returns pages) = Returns x -> Forall readable pages.
Proof.
  unfold extract_from_pdf. cbn [bind].
  destruct (pages_loop pages 1 ([], [])) as [acc |] eqn:L; [| discriminate].
  intros _. apply (pages_loop_readable _ _ _ _ L).
Qed.

Lemma extract_raises (pdf : outcome (list page)) (e : exn) :
  extract_from_pdf pdf = Raises e ->
  exists m, e = Exception ("Error reading PDF: " ++ m).
Proof.
  intros H. unfold extract_from_pdf in H.
  destruct (do pages <- pdf; _) as [x | e0]; [discriminate |].
  injection H as <-. eexists. reflexivity.
Qed.

(** X11: the extraction returns exactly when the file opens and every
    page gives its text and its tables; one page that fails makes the
    whole extraction fail, and every failure is an [Exception] whose
    message starts with [Error reading PDF: ]. *)
Theorem extract_all_or_nothing (pdf : outcome (list page)) :
  ((exists extracted_data, extract_from_pdf pdf = Returns extracted_data)
   <-> exists pages, pdf = Returns pages /\ Forall readable pages)
  /\ (forall e, extract_from_pdf pdf = Raises e ->
      exists m, e = Exception ("Error reading PDF: " ++ m)).
Proof.
  split.
  - split.
    + intros [x H]. unfold extract_from_pdf in H.
      destruct pdf as [pages | e]; [| discriminate]. cbn [bind] in H.
      destruct (pages_loop pages 1 ([], [])) as [acc |] eqn:L; [| discriminate].
      exists pages. split; [reflexivity | apply (pages_loop_readable _ _ _ _ L)].
    + intros (pages & -> & F). rewrite (extract_eq pages F). eexists. reflexivity.
  - apply extract_raises.
Qed.

Lemma entries_pages (pages : list page) (n : nat) :
  Forall (fun e => (n <= entry_page e < n + List.length pages)%nat)
         (flat_map entries_of (numbered pages n)).
Proof.
  revert n. induction pages as [| p pages IH]; intros n; [constructor |].
  cbn [numbered flat_map]. apply List.Forall_app. split.
  - unfold entries_of. cbn [fst snd].
    destruct (extract_tables p) as [ts |]; [| constructor].
    apply List.Forall_forall. intros e He. apply in_map_iff in He as (t & <- & _).
    cbn [entry_page List.length]. lia.
  - eapply List.Forall_impl; [| apply (IH (S n))].
    intros e He. cbn [List.length]. cbn beta in He. lia.
Qed.

Lemma entries_sorted (pages : list page) (n : nat) :
  StronglySorted le
    (List.map entry_page (flat_map entries_of (numbered pages n))).
Proof.
  revert n. induction pages as [| p pages IH]; intros n; [constructor |].
  cbn [numbered flat_map]. rewrite map_app.
  pose proof (entries_pages pages (S n)) as B.
  assert (Hhere : forall x, In x (List.map entry_page (entries_of (n, p))) -> x = n).
  { intros x Hx. unfold entries_of in Hx. cbn [fst snd] in Hx.
    destruct (extract_tables p) as [ts |]; [| destruct Hx].
    rewrite map_map in Hx. apply in_map_iff in Hx as (t & <- & _). reflexivity. }
  induction (List.map entry_page (entries_of (n, p))) as [| x xs IHx].
  - apply IH.
  - cbn [app]. constructor.
    + apply IHx. intros y Hy. apply Hhere. right. exact Hy.
    + apply List.Forall_app. split.
      * apply List.Forall_forall. intros y Hy.
        rewrite (Hhere x (or_introl eq_refl)), (Hhere y (or_intror Hy)). lia.
      * rewrite List.Forall_map. eapply List.Forall_impl; [| exact B].
        intros e He. cbn beta in He.
        rewrite (Hhere x (or_introl eq_refl)). lia.
Qed.

(** X12: in what the extraction returns, [page_count] is the number of
    pages, the tables are those of the pages, page after page and each
    with the number of its page counted from 1, so that the page numbers
    never decrease along the list and lie between 1 and [page_count]. *)
Theorem extract_tables_in_page_order (pages : list page) (x : extracted) :
  extract_from_pdf (Returns pages) = Returns x ->
  page_count x = List.length pages
  /\ tables x = flat_map entries_of (numbered pages 1)
  /\ Forall (fun e => (1 <= entry_page e <= page_count x)%nat) (tables x)
  /\ StronglySorted le (List.map entry_page (tables x)).
Proof.
  intros H.
  pose proof (extract_returns_readable pages x H) as F.
  rewrite (extract_eq pages F) in H. injection H as <-. cbn [page_count tables].
  split; [reflexivity |]. split; [reflexivity |]. split.
  - eapply List.Forall_impl; [| apply (entries_pages pages 1)].
    intros e He. cbn beta in He. lia.
  - apply entries_sorted.
Qed.

Lemma append_nonempty (a b : string) : a <> EmptyString -> (a ++ b)%string <> EmptyString.
Proof.
  destruct a as [| c a]; [congruence |]. intros _.
  change (String c (a ++ b)%string <> EmptyString). discriminate.
Qed.

Lemma join_fold_nonempty (sep : string) (ps : list string) (acc : string) :
  acc <> EmptyString ->
  fold_left (fun acc q => (acc ++ sep ++ q)%string) ps acc <> EmptyString.
Proof.
  revert acc. induction ps as [| q ps IH]; intros acc N; simpl; [exact N |].
  apply IH, append_nonempty, N.
Qed.

Lemma pieces_empty (pages : list page) (n : nat) :
  flat_map pieces_of (numbered pages n) = []
  <-> Forall (fun p => ~ has_text p) pages.
Proof.
  revert n. induction pages as [| p pages IH]; intros n.
  - split; [constructor | reflexivity].
  - cbn [numbered flat_map]. split.
    + intros H. apply app_eq_nil in H as [H1 H2]. constructor.
      * intros (c & t & E). unfold pieces_of in H1. cbn [fst snd] in H1.
        rewrite E in H1. discriminate.
      * apply (IH (S n)), H2.
    + intros H. inversion H as [| ? ? Hp Hps]; subst.
      rewrite (proj2 (IH (S n)) Hps), app_nil_r.
      unfold pieces_of. cbn [fst snd].
      destruct (extract_text p) as [[[| c t] |] |] eqn:E; try reflexivity.
      exfalso. apply Hp. exists c, t. exact E.
Qed.

Lemma pieces_headed (pages : list page) (n : nat) :
  Forall (fun s => String.prefix "--- Page " s = true)
         (flat_map pieces_of (numbered pages n)).
Proof.
  revert n. induction pages as [| p pages IH]; intros n; [constructor |].
  cbn [numbered flat_map]. apply List.Forall_app. split; [| apply IH].
  unfold pieces_of. cbn [fst snd].
  destruct (extract_text p) as [[[| c t] |] |]; constructor; [| constructor].
  apply prefix_get. intros i Hi. unfold page_piece.
  do 9 (destruct i as [| i]; [reflexivity |]). cbn in Hi. lia.
Qed.

(** X13: the text the extraction returns is the pieces of the pages
    that have text, each opening with its header [--- Page N ---], put
    together with a blank line between them; it is empty exactly when no
    page has text. *)
Theorem extract_text_pieces (pages : list page) (x : extracted) :
  extract_from_pdf (Returns pages) = Returns x ->
  text x = Repr.join "

" (flat_map pieces_of (numbered pages 1))
  /\ Forall (fun s => String.prefix "--- Page " s = true)
            (flat_map pieces_of (numbered pages 1))
  /\ (text x = EmptyString <-> Forall (fun p => ~ has_text p) pages).
Proof.
  intros H. pose proof (extract_returns_readable pages x H) as F.
  rewrite (extract_eq pages F) in H. injection H as <-. cbn [text].
  split; [reflexivity |]. split; [apply pieces_headed |].
  rewrite <- (pieces_empty pages 1).
  pose proof (pieces_headed pages 1) as P.
  destruct (flat_map pieces_of (numbered pages 1)) as [| s ss].
  - split; reflexivity.
  - split; [| discriminate]. intros E. exfalso.
    unfold Repr.join in E. revert E. apply join_fold_nonempty.
    inversion P as [| ? ? Hs _]; subst. destruct s; [discriminate | congruence].
Qed.

Lemma extract_sample :
  extract_from_pdf
    (Returns [page_with (Some "Total Balance: $1,204.33") [];
              page_with None [[[Some "Date"; None]]; []];
              page_with (Some "") [[[Some "x"]]]])
  = Returns {| text := "--- Page 1 ---
Total Balance: $1,204.33";
               tables := [mkentry 2 [[Some "Date"; None]]; mkentry 2 [];
                          mkentry 3 [[Some "x"]]];
               page_count := 3 |}.
Proof. vm_compute. reflexivity. Qed.

Lemma extract_tables_in_page_order_witness :
  StronglySorted le
    (List.map entry_page
       [mkentry 2 [[Some "Date"; None]]; mkentry 2 []; mkentry 3 [[Some "x"]]]).
Proof.
  exact (proj2 (proj2 (proj2
           (extract_tables_in_page_order _ _ extract_sample)))).
Defined.

Lemma extract_text_pieces_witness :
  "--- Page 1 ---
Total Balance: $1,204.33" = EmptyString
  <-> Forall (fun p => ~ has_text p)
        [page_with (Some "Total Balance: $1,204.33") [];
         page_with None [[[Some "Date"; None]]; []];
         page_with (Some "") [[[Some "x"]]]].
Proof.
  exact (proj2 (proj2 (extract_text_pieces _ _ extract_sample))).
Defined.

(** ** [_build_prompt] and the whole run *)

(** X14: only the first 20000 characters of the statement reach the
    prompt: two texts that agree on them give the same prompt, whose
    length is that of the template plus what was kept; a text of at most
    20000 characters is sent whole. *)
Theorem build_prompt_truncates (text : string) :
  Prompt._build_prompt text = Prompt._build_prompt (Str.take Prompt.limit text)
  /\ (forall text', Str.take Prompt.limit text' = Str.take Prompt.limit text ->
      Prompt._build_prompt text' = Prompt._build_prompt text)
  /\ String.length (Prompt._build_prompt text)
     = (String.length Prompt.head
        + Nat.min Prompt.limit (String.length text) + 1)%nat
  /\ ((String.length text <= Prompt.limit)%nat ->
      Prompt._build_prompt text = (Prompt.head ++ text ++ "
")%string).
Proof.
  unfold Prompt._build_prompt. split; [| split; [| split]].
  - rewrite take_take by lia. reflexivity.
  - intros text' E. rewrite E. reflexivity.
  - rewrite !length_append, length_take. cbn [String.length]. lia.
  - intros L. rewrite (take_all text _ L). reflexivity.
Qed.

Lemma build_prompt_truncates_witness :
  Prompt._build_prompt "Total Balance: $1,204.33"
  = (Prompt.head ++ "Total Balance: $1,204.33" ++ "
")%string.
Proof.
  refine (proj2 (proj2 (proj2 (build_prompt_truncates _))) _).
  apply Nat.leb_le. vm_compute. reflexivity.
Defined.

(** X15: when the run returns a result, every stage has returned: the
    extraction, the construction of the model (under the first name, or
    under the second one when the first was refused), the call to the
    model on the prompt built from the extracted text, the clean-up, the
    JSON parser, which gave an object, and [validate] on that object; the
    result is flagged valid and has no error.  When the run fails, the
    exception is an [Exception] that names the stage (reading the PDF,
    parsing the response, the call), or what the construction of the
    model raised, or the [AttributeError] of a JSON value that is not an
    object, or the [TypeError] of transactions that cannot be walked. *)
Theorem process_statement_stages
    (configure : outcome unit)
    (GenerativeModel : string -> outcome Pipeline.model)
    (json_loads : string -> outcome value) (pdf : outcome (list page)) :
  let run := Pipeline.process_statement configure GenerativeModel json_loads pdf in
  let first := GenerativeModel "gemini-2.5-flash" in
  let second := GenerativeModel "gemini-1.5-flash" in
  (forall r, run = Returns r ->
     exists x generate_content response cleaned d,
       extract_from_pdf pdf = Returns x
       /\ configure = Returns tt
       /\ (first = Returns generate_content
           \/ (exists e, first = Raises e) /\ second = Returns generate_content)
       /\ generate_content (Prompt._build_prompt (text x)) = Returns response
       /\ clean_response (Str.strip response) = Returns cleaned
       /\ json_loads cleaned = Returns (VDict d)
       /\ validate d = Returns r
       /\ is_valid r = true /\ errors r = [])
  /\ (forall e, run = Raises e ->
      (exists m, e = Exception ("Error reading PDF: " ++ m)
                 \/ e = Exception ("Could not parse AI response: " ++ m)
                 \/ e = Exception ("AI parsing error: " ++ m))
      \/ configure = Raises e
      \/ ((exists e1, first = Raises e1) /\ second = Raises e)
      \/ (exists v, e = AttributeError (Pipeline.no_attribute v)
                    /\ match v with VDict _ => False | _ => True end)
      \/ e = TypeError "object is not iterable").
Proof.
  intros run first second. subst run first second.
  unfold Pipeline.process_statement, Pipeline.parse_statement, Pipeline.init.
  split.
  - intros r H.
    destruct (extract_from_pdf pdf) as [x | e] eqn:X; [| discriminate].
    cbn [bind] in H.
    destruct configure as [[] | e]; [| discriminate].
    cbn [bind] in H.
    destruct (try_except _ _) as [g | e] eqn:M; [| discriminate].
    cbn [bind] in H.
    destruct (parse_statement json_loads _) as [parsed | e] eqn:P; [| discriminate].
    cbn [bind] in H.
    destruct (parse_statement_returns _ _ _ P) as (response & cleaned & G & C & J).
    destruct parsed as [| | | | | | d]; try discriminate.
    exists x, g, response, cleaned, d.
    destruct (validate_flags d r H) as [V E].
    split; [reflexivity |]. split; [reflexivity |].
    split.
    { unfold try_except in M.
      destruct (GenerativeModel "gemini-2.5-flash") as [g1 | e1].
      - left. exact M.
      - right. split; [exists e1; reflexivity | exact M]. }
    repeat split; assumption.
  - intros e H.
    destruct (extract_from_pdf pdf) as [x | e0] eqn:X.
    + cbn [bind] in H.
      destruct configure as [[] | e0].
      2:{ cbn [bind] in H. injection H as <-. right. left. reflexivity. }
      cbn [bind] in H.
      destruct (try_except _ _) as [g | e0] eqn:M.
      2:{ cbn [bind] in H. injection H as <-. right. right. left.
          unfold try_except in M.
          destruct (GenerativeModel "gemini-2.5-flash") as [g1 | e1];
            [discriminate |].
          split; [exists e1; reflexivity | exact M]. }
      cbn [bind] in H.
      destruct (parse_statement json_loads _) as [parsed | e1] eqn:P.
      * cbn [bind] in H. right. right. right.
        destruct parsed as [| | | | | | d];
          try (injection H as <-; left;
               match type of P with _ = Returns ?v => exists v end;
               split; [reflexivity | exact I]).
        right. rewrite validate_eq in H.
        destruct (transactions_iterable d); [discriminate |].
        injection H as <-. reflexivity.
      * cbn [bind] in H. injection H as <-. left.
        destruct (parse_statement_raises _ _ _ P) as [m [-> | ->]];
          exists m; auto.
    + cbn [bind] in H. injection H as <-. left.
      destruct (extract_raises _ _ X) as [m ->]. exists m. auto.
Qed.

(** ** Dates and responses: the general statements *)

(** X16: the seven formats are tried in the order given on the stripped
    text; the first one that parses it decides, and the result is the
    text [strftime] writes for its date, which has the form [YYYY-MM-DD]
    exactly when the year is 1000 or later; a text that none of them
    parses is returned as it is; and the validated record holds that
    result for each date field. *)
Theorem date_normalization :
  formats = ["%Y-%m-%d"; "%m/%d/%Y"; "%d/%m/%Y"; "%m-%d-%Y";
             "%B %d, %Y"; "%b %d, %Y"; "%Y/%m/%d"]
  /\ (forall s i fmt dt,
        s <> EmptyString ->
        nth_error formats i = Some fmt ->
        Datetime.strptime (Str.strip s) fmt = Returns dt ->
        (forall j fmt', (j < i)%nat -> nth_error formats j = Some fmt' ->
                        exists e, Datetime.strptime (Str.strip s) fmt' = Raises e) ->
        _clean_date (VStr s) = Returns (Some (Datetime.strftime_ymd dt))
        /\ iso_shape (Datetime.strftime_ymd dt) = (1000 <=? Datetime.year dt))
  /\ (forall s,
        s <> EmptyString ->
        (forall fmt, In fmt formats ->
                     exists e, Datetime.strptime (Str.strip s) fmt = Raises e) ->
        _clean_date (VStr s) = Returns (Some s))
  /\ (forall d r f s,
        validate d = Returns r -> In f date_fields ->
        Dict.get d f = VStr s ->
        exists c, _clean_date (VStr s) = Returns c
                  /\ Dict.get (data r) f
                     = VStr match c with Some written => written | None => s end).
Proof.
  split; [reflexivity |]. split; [| split].
  - intros s i fmt dt N Hi Hp Hj.
    rewrite (clean_date_str s N), (try_formats_first _ _ i fmt dt Hi Hp Hj).
    split; [reflexivity |].
    pose proof (strptime_valid _ _ _ Hp) as V.
    destruct (1000 <=? Datetime.year dt) eqn:L.
    + apply Z.leb_le in L. apply strftime_ymd_shape; assumption.
    + apply Z.leb_gt in L. apply strftime_ymd_short; assumption.
  - intros s N H. rewrite (clean_date_str s N), (try_formats_none _ _ H).
    reflexivity.
  - apply validate_date_field.
Qed.

Lemma date_normalization_witness :
  Datetime.strptime (Str.strip " 03/15/2024 ") "%m/%d/%Y"
  = Returns (Datetime.mkdate 2024 3 15)
  /\ _clean_date (VStr " 03/15/2024 ") = Returns (Some "2024-03-15").
Proof.
  assert (P : Datetime.strptime (Str.strip " 03/15/2024 ") "%m/%d/%Y"
              = Returns (Datetime.mkdate 2024 3 15)) by (vm_compute; reflexivity).
  split; [exact P |].
  refine (eq_trans
            (proj1 (proj1 (proj2 date_normalization)
                      " 03/15/2024 " 1%nat "%m/%d/%Y" _ _ eq_refl P _)) _).
  - discriminate.
  - intros j fmt' Hj Hn. destruct j as [| j]; [| lia].
    injection Hn as <-. eexists. vm_compute. reflexivity.
  - vm_compute. reflexivity.
Defined.

(** X17: when no label begins inside the closing fence, the text handed
    to the JSON parser is the body of the block
    labelled json when there is one, else the body of the first fenced
    block, else the response itself; what the parser returns is returned,
    and when the parser fails an exception is raised, so that [validate]
    is not run. *)
Theorem response_handling (json_loads : string -> outcome value) (text : string) :
  let t := Str.strip text in
  let upto closing s :=
    match find closing s with Some m => Str.take m s | None => s end in
  label_in_closing_fence t = false ->
  exists cleaned,
    clean_response t = Returns cleaned
    /\ (forall n, find json_fence t = Some n ->
        cleaned = Str.strip (upto fence (Str.drop (n + 7) t)))
    /\ (find json_fence t = None ->
        forall n, find fence t = Some n ->
        cleaned = Str.strip (upto fence (Str.drop (n + 3) t)))
    /\ (find fence t = None -> cleaned = t)
    /\ parse_statement json_loads (Returns text) =
       match json_loads cleaned with
       | Returns parsed => Returns parsed
       | Raises (JSONDecodeError m) =>
           Raises (Exception ("Could not parse AI response: " ++ m))
       | Raises e => Raises (Exception ("AI parsing error: " ++ exn_str e))
       end
    /\ (forall e, json_loads cleaned = Raises e ->
        exists msg,
          parse_statement json_loads (Returns text) = Raises (Exception msg)
          /\ process_statement json_loads (Returns text) = Raises (Exception msg)).
Proof.
  intros t upto P. exists (unwrap_spec t).
  pose proof (clean_response_eq t P) as E.
  split; [exact E |]. split; [| split; [| split; [| split]]].
  - intros n F. unfold unwrap_spec, block. rewrite F.
    change (String.length json_fence) with 7%nat. unfold upto.
    destruct (find fence (Str.drop (n + 7) t)); reflexivity.
  - intros Fj n F. unfold unwrap_spec, block. rewrite Fj, F.
    change (String.length fence) with 3%nat. unfold upto.
    destruct (find fence (Str.drop (n + 3) t)); reflexivity.
  - intros F. unfold unwrap_spec, block. rewrite F.
    destruct (find json_fence t) as [n |] eqn:Fj; [| reflexivity].
    exfalso. apply find_some in Fj as (J1 & _ & _).
    apply json_fence_is_fence in J1.
    rewrite (proj1 (find_none _ _) F n) in J1. discriminate.
  - unfold parse_statement. cbn [bind]. fold t. rewrite E. cbn [bind].
    destruct (json_loads (unwrap_spec t)) as [v | []]; reflexivity.
  - intros e He. unfold process_statement, parse_statement. cbn [bind].
    fold t. rewrite E. cbn [bind]. rewrite He.
    destruct e; eexists; split; reflexivity.
Qed.

Lemma response_handling_witness :
  label_in_closing_fence (Str.strip sample_response) = false
  /\ clean_response (Str.strip sample_response) = Returns "{}"
  /\ parse_statement sample_json_loads (Returns sample_response)
     = Returns (VDict []).
Proof.
  assert (P : label_in_closing_fence (Str.strip sample_response) = false)
    by (vm_compute; reflexivity).
  split; [exact P |].
  destruct (response_handling sample_json_loads sample_response P)
    as (cleaned & E & _ & _ & _ & Hp & _).
  assert (C : cleaned = "{}").
  { assert (E' : clean_response (Str.strip sample_response) = Returns "{}")
      by (vm_compute; reflexivity).
    rewrite E' in E. injection E as <-. reflexivity. }
  subst cleaned. split; [exact E |]. rewrite Hp. vm_compute. reflexivity.
Defined.

(** ** When the clean-up is the specification's *)

(** A cut before the end of the first occurrence leaves no occurrence. *)
Lemma find_take_short (sub s : string) (m j : nat) :
  sub <> EmptyString -> find sub s = Some m ->
  (j < m + String.length sub)%nat ->
  find sub (Str.take j s) = None.
Proof.
  intros N F Lj. apply find_some in F as (_ & F & _).
  apply find_none. intros i. apply prefix_false_get.
  destruct (Nat.lt_ge_cases i m) as [L | G].
  - destruct (proj1 (prefix_false_get _ _) (F i L)) as (k & Hk & Hne).
    exists k. split; [exact Hk |].
    rewrite get_drop, get_take. rewrite get_drop in Hne.
    destruct (i + k <? j)%nat; [exact Hne |].
    destruct (get_some sub k Hk) as [c ->]. discriminate.
  - assert (P : (0 < String.length sub)%nat)
      by (destruct sub; [congruence | cbn [String.length]; lia]).
    exists (String.length sub - 1)%nat. split; [lia |].
    rewrite get_drop, get_take.
    replace (i + (String.length sub - 1) <? j)%nat with false
      by (symmetry; apply Nat.ltb_ge; lia).
    destruct (get_some sub (String.length sub - 1)%nat ltac:(lia)) as [c ->].
    discriminate.
Qed.

Lemma take_split (s : string) (m j : nat) :
  (m <= j)%nat ->
  Str.take j s = (Str.take m s ++ Str.take (j - m) (Str.drop m s))%string.
Proof.
  revert s j. induction m as [| m IH]; intros s j L.
  - rewrite Nat.sub_0_r. reflexivity.
  - destruct j as [| j]; [lia |].
    destruct s as [| c s];
      [cbn [Str.take Str.drop]; destruct (S j - S m)%nat; reflexivity |].
    cbn [Str.take Str.drop Nat.sub].
    change (String c (Str.take j s)
            = String c (Str.take m s ++ Str.take (j - m) (Str.drop m s))%string).
    f_equal. apply IH. lia.
Qed.

Lemma lstrip_app (p : ascii -> bool) (x b : string) (c : ascii) :
  p c = false ->
  Str.lstrip_by p (x ++ String c b) = (Str.lstrip_by p x ++ String c b)%string.
Proof.
  intros Hc. induction x as [| a x IH].
  - change (Str.lstrip_by p (String c b) = String c b).
    cbn [Str.lstrip_by]. rewrite Hc. reflexivity.
  - change (Str.lstrip_by p (String a (x ++ String c b))
            = (Str.lstrip_by p (String a x) ++ String c b)%string).
    cbn [Str.lstrip_by]. destruct (p a); [exact IH | reflexivity].
Qed.

Lemma append_assoc_str (a b c : string) :
  ((a ++ b) ++ c)%string = (a ++ (b ++ c))%string.
Proof.
  induction a as [| x a IH]; [reflexivity |].
  change (String x ((a ++ b) ++ c) = String x (a ++ (b ++ c)))%string.
  f_equal. exact IH.
Qed.

Lemma length_rstrip_le (p : ascii -> bool) (s : string) :
  (String.length (Str.rstrip_by p s) <= String.length s)%nat.
Proof.
  destruct (rstrip_is_take p s) as [k ->]. rewrite length_take. lia.
Qed.

(** One or two backticks after a text stay when it is stripped, so the
    result is longer than the stripped text. *)
Lemma strip_backticks_longer (x b : string) :
  b = "`" \/ b = "``" ->
  (String.length (Str.strip x) < String.length (Str.strip (x ++ b)))%nat.
Proof.
  intros Hb. unfold Str.strip.
  pose proof (length_rstrip_le Str.isspace (Str.lstrip_by Str.isspace x)) as L.
  destruct Hb as [-> | ->].
  - rewrite (lstrip_app Str.isspace x "" "`") by reflexivity.
    rewrite rstrip_last by reflexivity.
    rewrite length_append. cbn [String.length]. lia.
  - rewrite (lstrip_app Str.isspace x "`" "`") by reflexivity.
    change "``" with ("`" ++ "`")%string.
    rewrite <- append_assoc_str.
    rewrite rstrip_last by reflexivity.
    rewrite !length_append. cbn [String.length]. lia.
Qed.

Lemma prefix_fence_take (s : string) :
  String.prefix fence s = true ->
  Str.take 1 s = "`" /\ Str.take 2 s = "``".
Proof.
  intros P.
  pose proof (proj1 (prefix_get _ _) P) as G.
  pose proof (G 0%nat ltac:(cbn; lia)) as G0.
  pose proof (G 1%nat ltac:(cbn; lia)) as G1.
  destruct s as [| a [| b s]]; try discriminate.
  cbn in G0, G1. injection G0 as ->. injection G1 as ->.
  split; reflexivity.
Qed.

(** With a label inside the closing fence, the clean-up keeps one or two
    backticks that the specification's reading does not have. *)
Lemma clean_response_keeps_backticks (text : string) :
  label_in_closing_fence text = true ->
  clean_response text <> Returns (unwrap_spec text).
Proof.
  unfold label_in_closing_fence, clean_response, unwrap_spec, block.
  rewrite !contains_find.
  destruct (find json_fence text) as [n |] eqn:Fj; [| discriminate].
  rewrite (index_split_1 json_fence text n) by (discriminate || exact Fj).
  rewrite index_split_0 by discriminate. cbn [bind].
  rewrite index_split_0 by discriminate. cbn [bind].
  set (after := Str.drop (n + String.length json_fence) text).
  destruct (find fence after) as [m |] eqn:M; [| discriminate].
  destruct (find json_fence after) as [j |] eqn:J; [| discriminate].
  intros Q E.
  assert (Hj : j = (m + 1)%nat \/ j = (m + 2)%nat).
  { apply orb_true_iff in Q as [Q | Q]; apply Nat.eqb_eq in Q; lia. }
  rewrite (find_take_short fence after m j) in E
    by (discriminate || exact M || (cbn [String.length fence]; lia)).
  injection E as E.
  pose proof (proj1 (find_some _ _ _) M) as (M1 & _ & _).
  destruct (prefix_fence_take _ M1) as [T1 T2].
  rewrite (take_split after m j) in E by lia.
  pose proof (strip_backticks_longer (Str.take m after)
                (Str.take (j - m) (Str.drop m after))) as S.
  rewrite E in S. apply (Nat.lt_irrefl (String.length (Str.strip (Str.take m after)))).
  apply S.
  destruct Hj as [-> | ->].
  - left. replace (m + 1 - m)%nat with 1%nat by lia. exact T1.
  - right. replace (m + 2 - m)%nat with 2%nat by lia. exact T2.
Qed.

(** X18: the text the clean-up hands to the JSON parser is the one the
    specification describes (the body of the block labelled json, from the
    first label to the next fence; else the body of the first fenced
    block; else the response) exactly when no label begins inside the
    fence that closes the block labelled json. *)
Theorem clean_response_exact (text : string) :
  clean_response text = Returns (unwrap_spec text)
  <-> label_in_closing_fence text = false.
Proof.
  split.
  - intros E. destruct (label_in_closing_fence text) eqn:Q; [| reflexivity].
    exfalso. exact (clean_response_keeps_backticks text Q E).
  - apply clean_response_eq.
Qed.
